(** * pypyueye: the camera control layer and its acquisition workers

    A shallow embedding of [pypyueye/camera.py] and [pypyueye/threads.py].

    Conventions of the embedding.
    - Python [int] is [Z]; a finite Python [float] (a binary64) is the
      rational it denotes, in [Q], with [int(x)] as truncation toward zero
      and ['{:.0f}'.format(x)] as rounding to the nearest integer, ties to
      even.  The float expressions of [time_str] and [__get_timeout] round
      after every operation, as binary64 does ([round64]: the nearest
      number of 53 significant bits, ties to even, with the subnormal
      range and the overflow to infinity); the same expressions are also
      given on binary64 itself ([get_timeout_binary64],
      [time_str_binary64]) and the two are compared on concrete inputs.
      The reciprocals of [get_fps_range] are kept exact: what is stated
      of them (sign, order, division by zero) does not depend on their
      rounding.
    - A method is a computation over the object it mutates and the outside
      world: it returns a value or raises, and the state it leaves behind is
      kept in both cases, as in Python.
    - The uEye driver, the clock and the other threads are the environment:
      the driver is an interface with a state of its own ([Camera.Driver]),
      and a worker reads one [tick] of its schedule per loop iteration. *)

From Stdlib Require Import ZArith QArith Qround Qabs Qpower Qfield.
From Stdlib Require Import List String Ascii Bool Lia.
From Stdlib Require Import Lqa Floats.
From Stdlib Require Import DecimalString DecimalPos DecimalZ.
Import ListNotations.

Local Open Scope string_scope.
Local Open Scope list_scope.
Local Open Scope Z_scope.

(** ** Python values and control flow *)

(** The exceptions the embedded code can raise. *)
Inductive exn : Type :=
| uEyeException (code : Z)
| NameError (name : string)
| AttributeError (attr : string)
| IndexError
| TypeError
| ZeroDivisionError
| OSError
| OverflowError.

Inductive outcome (A : Type) : Type :=
| Ret (a : A)
| Exc (e : exn).
Arguments Ret {A} a.
Arguments Exc {A} e.

(** A computation over a state [S]: the state survives an exception. *)
Definition Py (S A : Type) : Type := S -> outcome A * S.

Definition ret {S A} (a : A) : Py S A := fun s => (Ret a, s).
Definition raise {S A} (e : exn) : Py S A := fun s => (Exc e, s).
Definition bind {S A B} (m : Py S A) (k : A -> Py S B) : Py S B :=
  fun s => match m s with
           | (Ret a, s') => k a s'
           | (Exc e, s') => (Exc e, s')
           end.
Definition gets {S A} (f : S -> A) : Py S A := fun s => (Ret (f s), s).
Definition modify {S} (f : S -> S) : Py S unit := fun s => (Ret tt, f s).

Declare Scope py_scope.
Delimit Scope py_scope with py.
Notation "x <- m ;; k" := (bind m (fun x => k))
  (at level 61, m at next level, right associativity) : py_scope.
Notation "m ;; k" := (bind m (fun _ => k))
  (at level 61, right associativity) : py_scope.

(** [ueye.IS_SUCCESS]. *)
Definition IS_SUCCESS : Z := 0.

(** [str(n)] and ["%d" % n] for an integer. *)
Definition str_of_Z (n : Z) : string := NilZero.string_of_int (Z.to_int n).

(** [getattr(self, name)]: an attribute that has not been assigned yet is
    [None] in the embedding, and reading it raises. *)
Definition getattr {S A} (name : string) (proj : S -> option A) : Py S A :=
  fun self => match proj self with
              | Some v => (Ret v, self)
              | None => (Exc (AttributeError name), self)
              end.

(** [s[-1]] on a string: the empty string has no last character. *)
Fixpoint last_char (s : string) : option ascii :=
  match s with
  | EmptyString => None
  | String c EmptyString => Some c
  | String _ rest => last_char rest
  end.

(** The integer nearest to [x], ties to the even one: what a float format
    with precision 0 prints. *)
Definition round_half_even (x : Q) : Z :=
  let f := Qfloor x in
  match Qcompare (x - inject_Z f) (1 # 2) with
  | Lt => f
  | Gt => f + 1
  | Eq => if Z.even f then f else f + 1
  end.

(** ['{:.0f}'.format(x)]: the sign is printed apart, so a negative [x] that
    rounds to zero prints as [-0]. *)
Definition format_0f (x : Q) : string :=
  if Qle_bool 0 x then str_of_Z (round_half_even x)
  else ("-" ++ str_of_Z (round_half_even (- x)))%string.

(** [int(x)] on a float: truncation toward zero. *)
Definition int_of_float (x : Q) : Z := Z.quot (Qnum x) (Zpos (Qden x)).

(** The rational that a finite binary64 denotes. *)
Definition float_value (v : float) : option Q :=
  match Prim2SF v with
  | S754_zero _ => Some 0%Q
  | S754_finite s m e =>
      let n := if s then Zneg m else Zpos m in
      Some (if 0 <=? e then inject_Z (n * 2 ^ e)
            else (n # Pos.pow 2 (Z.to_pos (- e)))%Q)
  | _ => None
  end.

(** ** binary64

    A finite float is the rational it denotes.  An arithmetic operation
    on floats returns the binary64 nearest to the exact result, ties to
    the even significand ([round64]); from [2^1024] on that is an
    infinity. *)

(** [2^e] as a rational. *)
Definition pow2 (e : Z) : Q := ((2 # 1) ^ e)%Q.

(** For [x > 0], the [k] with [2^k <= x < 2^(k+1)]. *)
Definition ilog2 (x : Q) : Z :=
  let k := Z.log2 (Qnum x) - Z.log2 (Zpos (Qden x)) in
  if Qle_bool (pow2 k) x then k else k - 1.

(** The exponent of the last place of the binary64 nearest to [x]: 53
    significant bits, and no place below [2^-1074]. *)
Definition exponent64 (x : Q) : Z := Z.max (ilog2 (Qabs x) - 52) (-1074).

(** [x] rounded to a multiple of [2^e], ties to the even multiple. *)
Definition round_at (e : Z) (x : Q) : Q :=
  (inject_Z (round_half_even (x / pow2 e)) * pow2 e)%Q.

(** [x] rounded to 53 significant bits, before the check for overflow. *)
Definition nearest64 (x : Q) : Q :=
  Qred (round_at (exponent64 (Qred x)) (Qred x)).

(** A float: finite, or an infinity. *)
Inductive binary64 : Type :=
| Finite (v : Q)
| Infinity (negative : bool).

(** The float that an operation returns for the exact result [x]. *)
Definition round64 (x : Q) : binary64 :=
  let r := nearest64 x in
  if Qle_bool (pow2 1024) (Qabs r) then Infinity (negb (Qle_bool 0 x))
  else Finite r.

(** The largest finite float. *)
Definition max_float : Q := (inject_Z (2 ^ 53 - 1) * pow2 971)%Q.

(** [a * x] for a finite [a > 0], and [x + a] for a finite [a]: an
    infinity stays what it is. *)
Definition float_scale (a : Q) (x : binary64) : binary64 :=
  match x with
  | Finite v => round64 (a * v)
  | Infinity s => Infinity s
  end.

Definition float_shift (x : binary64) (a : Q) : binary64 :=
  match x with
  | Finite v => round64 (v + a)
  | Infinity s => Infinity s
  end.

(** [int(x)] on the float that an operation returned. *)
Definition int_of_binary64 {S} (x : binary64) : Py S Z :=
  match x with
  | Finite v => ret (int_of_float v)
  | Infinity _ => raise OverflowError
  end.

(** ['{:.0f}'.format(x)] on the float that an operation returned. *)
Definition format_0f_binary64 (x : binary64) : string :=
  match x with
  | Finite v => format_0f v
  | Infinity false => "inf"
  | Infinity true => "-inf"
  end.

(** The value of a binary64 in the same terms, to compare the two. *)
Definition binary64_of_float (v : float) : option binary64 :=
  match Prim2SF v with
  | S754_infinity s => Some (Infinity s)
  | S754_nan => None
  | _ => option_map (fun q => Finite (Qred q)) (float_value v)
  end.

(** ** utils.py: the types both modules import *)

(** An [ImageBuffer] as the driver fills it. *)
Record ImageBuffer : Type := { mem_ptr : Z; mem_id : Z }.

(** [ImageData(handle, img_buffer)]: the claim on one buffer. *)
Record ImageData : Type := { img_buffer : ImageBuffer }.

(** Modelled from the spec: [check] of [utils.py], which is not among the
    sources.  A driver call fails with the error that carries its code on
    any return code other than success. *)
Definition check {S} (ret_code : Z) : Py S unit :=
  if ret_code =? IS_SUCCESS then ret tt else raise (uEyeException ret_code).

(** A name that is bound in no enclosing scope raises. *)
Definition lookup_name {S} (scope : list (string * Z)) (name : string)
  : Py S Z :=
  match find (fun b => String.eqb (fst b) name) scope with
  | Some b => ret (snd b)
  | None => raise (NameError name)
  end.

(** ** threads.py *)

Module Threads.

(** [ENVI_FLUSHING_N]: how often the envi data is flushed to disk. *)
Definition ENVI_FLUSHING_N : Z := 100.

(** What a worker does to the world outside its own attributes. *)
Inductive event : Type :=
| CaptureVideo
| WaitForNextImage (ret : Z) (buf : ImageBuffer)
| Print (msg : string)
| StopVideo
| Unlock (buf : ImageBuffer)
| EnviCreate (loc : string) (bands lines samples : Z)
| MapWrite (index : Z) (buf : ImageBuffer)
| MapFlush
| TimingsWrite (file text : string)
| Imwrite (path : string) (buf : ImageBuffer).

(** The attributes of a worker object, and the world it acts on.
    [GatherThread.__init__] assigns [timeout], [running], [copy], [d] and
    [capt_time]; the others belong to [MultiFrameThread].  An attribute that
    the code may read before it is assigned is an [option]: [max_frames] and
    [aoi] (assigned last by the constructor), [path] (assigned by
    [set_path]), [timings] and [map] (assigned by [prep_envi_capture];
    [map] is kept as the length of the sample axis of the memory map).
    [iio_raises] is the part of the world that [iio.imwrite] meets: the
    exception it raises for a path it cannot write (no such folder, no
    format for the extension), if any. *)
Record Thread : Type := {
  timeout : Z;
  running : bool;
  copy : bool;
  d : Z;
  capt_time : Q;
  base_name : string;
  folder : string;
  file_type : string;
  max_frames : option Z;
  aoi : option (list Z);
  path : option string;
  timings : option string;
  map : option Z;
  world : list event;
  iio_raises : string -> option exn
}.

(** The object before any constructor has run. *)
Definition blank : Thread :=
  {| timeout := 0; running := false; copy := false; d := 0; capt_time := 0;
     base_name := ""; folder := ""; file_type := ""; max_frames := None;
     aoi := None; path := None; timings := None; map := None; world := [];
     iio_raises := fun _ => None |}.

Definition with_world (f : list event -> list event) (self : Thread) :=
  {| timeout := timeout self; running := running self; copy := copy self;
     d := d self; capt_time := capt_time self; base_name := base_name self;
     folder := folder self; file_type := file_type self;
     max_frames := max_frames self; aoi := aoi self; path := path self;
     timings := timings self; map := map self; world := f (world self);
     iio_raises := iio_raises self |}.

Definition with_timeout (v : Z) (self : Thread) :=
  {| timeout := v; running := running self; copy := copy self;
     d := d self; capt_time := capt_time self; base_name := base_name self;
     folder := folder self; file_type := file_type self;
     max_frames := max_frames self; aoi := aoi self; path := path self;
     timings := timings self; map := map self; world := world self;
     iio_raises := iio_raises self |}.

Definition with_running (v : bool) (self : Thread) :=
  {| timeout := timeout self; running := v; copy := copy self;
     d := d self; capt_time := capt_time self; base_name := base_name self;
     folder := folder self; file_type := file_type self;
     max_frames := max_frames self; aoi := aoi self; path := path self;
     timings := timings self; map := map self; world := world self;
     iio_raises := iio_raises self |}.

Definition with_copy (v : bool) (self : Thread) :=
  {| timeout := timeout self; running := running self; copy := v;
     d := d self; capt_time := capt_time self; base_name := base_name self;
     folder := folder self; file_type := file_type self;
     max_frames := max_frames self; aoi := aoi self; path := path self;
     timings := timings self; map := map self; world := world self;
     iio_raises := iio_raises self |}.

Definition with_d (v : Z) (self : Thread) :=
  {| timeout := timeout self; running := running self; copy := copy self;
     d := v; capt_time := capt_time self; base_name := base_name self;
     folder := folder self; file_type := file_type self;
     max_frames := max_frames self; aoi := aoi self; path := path self;
     timings := timings self; map := map self; world := world self;
     iio_raises := iio_raises self |}.

Definition with_capt_time (v : Q) (self : Thread) :=
  {| timeout := timeout self; running := running self; copy := copy self;
     d := d self; capt_time := v; base_name := base_name self;
     folder := folder self; file_type := file_type self;
     max_frames := max_frames self; aoi := aoi self; path := path self;
     timings := timings self; map := map self; world := world self;
     iio_raises := iio_raises self |}.

Definition with_base_name (v : string) (self : Thread) :=
  {| timeout := timeout self; running := running self; copy := copy self;
     d := d self; capt_time := capt_time self; base_name := v;
     folder := folder self; file_type := file_type self;
     max_frames := max_frames self; aoi := aoi self; path := path self;
     timings := timings self; map := map self; world := world self;
     iio_raises := iio_raises self |}.

Definition with_folder (v : string) (self : Thread) :=
  {| timeout := timeout self; running := running self; copy := copy self;
     d := d self; capt_time := capt_time self; base_name := base_name self;
     folder := v; file_type := file_type self;
     max_frames := max_frames self; aoi := aoi self; path := path self;
     timings := timings self; map := map self; world := world self;
     iio_raises := iio_raises self |}.

Definition with_file_type (v : string) (self : Thread) :=
  {| timeout := timeout self; running := running self; copy := copy self;
     d := d self; capt_time := capt_time self; base_name := base_name self;
     folder := folder self; file_type := v;
     max_frames := max_frames self; aoi := aoi self; path := path self;
     timings := timings self; map := map self; world := world self;
     iio_raises := iio_raises self |}.

Definition with_max_frames (v : Z) (self : Thread) :=
  {| timeout := timeout self; running := running self; copy := copy self;
     d := d self; capt_time := capt_time self; base_name := base_name self;
     folder := folder self; file_type := file_type self;
     max_frames := Some v; aoi := aoi self; path := path self;
     timings := timings self; map := map self; world := world self;
     iio_raises := iio_raises self |}.

Definition with_aoi (v : list Z) (self : Thread) :=
  {| timeout := timeout self; running := running self; copy := copy self;
     d := d self; capt_time := capt_time self; base_name := base_name self;
     folder := folder self; file_type := file_type self;
     max_frames := max_frames self; aoi := Some v; path := path self;
     timings := timings self; map := map self; world := world self;
     iio_raises := iio_raises self |}.

Definition with_path (v : string) (self : Thread) :=
  {| timeout := timeout self; running := running self; copy := copy self;
     d := d self; capt_time := capt_time self; base_name := base_name self;
     folder := folder self; file_type := file_type self;
     max_frames := max_frames self; aoi := aoi self; path := Some v;
     timings := timings self; map := map self; world := world self;
     iio_raises := iio_raises self |}.

Definition with_timings (v : string) (self : Thread) :=
  {| timeout := timeout self; running := running self; copy := copy self;
     d := d self; capt_time := capt_time self; base_name := base_name self;
     folder := folder self; file_type := file_type self;
     max_frames := max_frames self; aoi := aoi self; path := path self;
     timings := Some v; map := map self; world := world self;
     iio_raises := iio_raises self |}.

Definition with_map (v : Z) (self : Thread) :=
  {| timeout := timeout self; running := running self; copy := copy self;
     d := d self; capt_time := capt_time self; base_name := base_name self;
     folder := folder self; file_type := file_type self;
     max_frames := max_frames self; aoi := aoi self; path := path self;
     timings := timings self; map := Some v; world := world self;
     iio_raises := iio_raises self |}.

Definition with_iio_raises (v : string -> option exn) (self : Thread) :=
  {| timeout := timeout self; running := running self; copy := copy self;
     d := d self; capt_time := capt_time self; base_name := base_name self;
     folder := folder self; file_type := file_type self;
     max_frames := max_frames self; aoi := aoi self; path := path self;
     timings := timings self; map := map self; world := world self;
     iio_raises := v |}.

Local Open Scope py_scope.

(** An effect on the world is appended to its record. *)
Definition emit (e : event) : Py Thread unit :=
  modify (with_world (fun w => w ++ [e])).

(** *** GatherThread *)

(** [GatherThread.__init__]; [capture_video] is what
    [self.cam.capture_video()] does: return the driver's code, or raise. *)
Definition GatherThread__init__ (capture_video : outcome Z) (cp : bool)
  : Py Thread unit :=
  modify (with_timeout 1000) ;;
  emit CaptureVideo ;;
  _ <- (fun self => (capture_video, self)) ;;
  modify (with_running true) ;;
  modify (with_copy cp) ;;
  modify (with_d 0) ;;
  modify (with_capt_time (-1)%Q).

(** [self.d += 1] *)
Definition incr_d : Py Thread unit :=
  n <- gets d ;; modify (with_d (n + 1)).

(** [image_data.unlock()] *)
Definition unlock (image_data : ImageData) : Py Thread unit :=
  emit (Unlock (img_buffer image_data)).

(** The per-frame callback [self.process], chosen by the class of the
    worker. *)
Definition callback : Type := ImageData -> Py Thread unit.

(** [GatherThread.process]: [pass]. *)
Definition process : callback := fun _ => ret tt.

(** [GatherThread._process] *)
Definition _process (process : callback) (image_data : ImageData)
  : Py Thread unit :=
  process image_data ;;
  incr_d ;;
  unlock image_data.

(** [GatherThread.stop] *)
Definition stop : Py Thread unit :=
  emit StopVideo ;;
  modify (with_running false).

(** One turn of the environment, read by one loop iteration: the driver's
    answer to [is_WaitForNextImage] together with the clock, or a call of
    [stop()] from the controlling thread before the next loop test. *)
Inductive tick : Type :=
| Wait (ret : Z) (buf : ImageBuffer) (now : Q)
| ExternalStop.

Definition missed_warning (n : Z) : string :=
  ("Warning: Missed " ++ str_of_Z n ++ "th frame !")%string.

(** The body of the [while self.running] loop of [GatherThread.run] for one
    answer of the driver. *)
Definition run_body (process : callback) (ret_code : Z) (buf : ImageBuffer)
  (now : Q) : Py Thread unit :=
  emit (WaitForNextImage ret_code buf) ;;
  if ret_code =? IS_SUCCESS then
    modify (with_capt_time now) ;;
    _process process {| img_buffer := buf |}
  else
    n <- gets d ;;
    emit (Print (missed_warning n)) ;;
    incr_d.

(** [GatherThread.run], over a finite schedule: the loop leaves when
    [running] is false or an exception escapes; when the schedule is
    exhausted the state reached so far is returned with [running] still
    true. *)
Fixpoint run (process : callback) (ticks : list tick) : Py Thread unit :=
  fun self =>
    if running self then
      match ticks with
      | [] => (Ret tt, self)
      | ExternalStop :: rest =>
          (stop ;; run process rest) self
      | Wait ret_code buf now :: rest =>
          (run_body process ret_code buf now ;; run process rest) self
      end
    else (Ret tt, self).

(** *** SaveThread *)

(** [iio.imwrite(p, image)]: the writer raises, or writes the file. *)
Definition imwrite (p : string) (b : ImageBuffer) : Py Thread unit :=
  w <- gets iio_raises ;;
  match w p with
  | Some e => raise e
  | None => emit (Imwrite p b)
  end.

(** [SaveThread.process]: write the frame to the fixed path and stop. *)
Definition SaveThread_process : callback := fun image_data =>
  p <- getattr "path" path ;;
  imwrite p (img_buffer image_data) ;;
  stop.

(** *** MultiFrameThread *)

(** [MultiFrameThread.time_str]: the capture time in ms; the product is a
    float. *)
Definition time_str : Py Thread string :=
  t <- gets capt_time ;;
  ret (format_0f_binary64 (round64 (t * 1000))).

(** The expression of [time_str] evaluated in binary64. *)
Definition time_str_binary64 (capt : float) : option string :=
  option_map format_0f_binary64 (binary64_of_float (capt * 1000)%float).

(** [MultiFrameThread.set_path] *)
Definition set_path : Py Thread string :=
  fo <- gets folder ;;
  bn <- gets base_name ;;
  ts <- time_str ;;
  ft <- gets file_type ;;
  modify (with_path (fo ++ bn ++ ts ++ ft)%string) ;;
  getattr "path" path.

(** [MultiFrameThread.stop_check]; a call that falls off the end returns
    [None]. *)
Definition stop_check : Py Thread (option bool) :=
  m <- getattr "max_frames" max_frames ;;
  if m >? 0 then
    n <- gets d ;;
    if n + 2 >? m then
      stop ;;
      ret (Some true)
    else
      ret (Some false)
  else ret None.

(** Truth value of what [stop_check] returns. *)
Definition truthy (b : option bool) : bool :=
  match b with Some true => true | _ => false end.

(** [t[i]] on a tuple, for [i >= 0]. *)
Definition tuple_get (t : list Z) (i : nat) : Py Thread Z :=
  match nth_error t i with
  | Some v => ret v
  | None => raise IndexError
  end.

(** [MultiFrameThread.prep_envi_capture]; the memory map has one sample per
    frame, [samples] of them. *)
Definition prep_envi_capture : Py Thread (Z * string) :=
  a <- getattr "aoi" aoi ;;
  bands <- tuple_get a 3 ;;
  a <- getattr "aoi" aoi ;;
  lines <- tuple_get a 2 ;;
  samples <- getattr "max_frames" max_frames ;;
  fo <- gets folder ;;
  bn <- gets base_name ;;
  let loc := (fo ++ bn ++ ".hdr")%string in
  fo <- gets folder ;;
  bn <- gets base_name ;;
  modify (with_timings (fo ++ bn ++ "_timings.csv")%string) ;;
  emit (EnviCreate loc bands lines samples) ;;
  modify (with_map samples) ;;
  m <- getattr "map" map ;;
  tm <- getattr "timings" timings ;;
  ret (m, tm).

(** The function [process] that [set_process] defines for the file type
    [.envi]. *)
Definition process_envi : callback := fun image_data =>
  (* save data *)
  samples <- getattr "map" map ;;
  n <- gets d ;;
  (if (- samples <=? n) && (n <? samples)
   then emit (MapWrite n (img_buffer image_data))
   else raise IndexError) ;;
  n <- gets d ;;
  (if n mod ENVI_FLUSHING_N =? 0 then emit MapFlush else ret tt) ;;
  (* save timing *)
  tm <- getattr "timings" timings ;;
  ts <- time_str ;;
  emit (TimingsWrite tm (ts ++ ",")%string) ;;
  (* end if max frames *)
  b <- stop_check ;;
  if truthy b then emit MapFlush else ret tt.

(** Calling a [str] raises. *)
Definition call_str (s : string) : Py Thread string := raise TypeError.

(** The function [process] that [set_process] defines for the other file
    types; it calls the attribute [path]. *)
Definition process_iio : callback := fun image_data =>
  p <- getattr "path" path ;;
  p <- call_str p ;;
  imwrite p (img_buffer image_data) ;;
  _ <- stop_check ;;
  ret tt.

(** [MultiFrameThread.set_process]: prepares the envi capture when the file
    type asks for it (the test on the file type is read as a comparison),
    and defines a function [process] for the file type.  That function is
    a local name of the call: it is neither assigned to the object nor
    returned, and the call returns [None]. *)
Definition set_process : Py Thread unit :=
  ft <- gets file_type ;;
  if (ft =? ".envi")%string then
    _ <- prep_envi_capture ;;
    let process := process_envi in
    ret tt
  else
    let process := process_iio in
    ret tt.

(** The method [process] of a [MultiFrameThread]: the class defines none,
    so it is the one inherited from [GatherThread]. *)
Definition MultiFrameThread_process : callback := process.

(** [MultiFrameThread.__init__] *)
Definition MultiFrameThread__init__ (capture_video : outcome Z)
  (folder_arg base_name_arg : string) (max_frames_arg : Z)
  (file_type_arg : string) (cp : bool) (aoi_arg : list Z) : Py Thread unit :=
  GatherThread__init__ capture_video cp ;;
  modify (with_base_name base_name_arg) ;;
  folder_arg <-
    match last_char folder_arg with
    | None => raise IndexError
    | Some c => if Ascii.eqb c "/"%char
                then ret folder_arg
                else ret (folder_arg ++ "/")%string
    end ;;
  modify (with_folder folder_arg) ;;
  modify (with_file_type file_type_arg) ;;
  _ <- set_process ;;
  modify (with_max_frames max_frames_arg) ;;
  match aoi_arg with
  | [] => ret tt
  | _ => modify (with_aoi aoi_arg)
  end.

(** *** Observations on the world of a worker *)

(** The buffers that successful fetches delivered, in order. *)
Definition fetched_of (e : event) : list ImageBuffer :=
  match e with
  | WaitForNextImage r b => if r =? IS_SUCCESS then [b] else []
  | _ => []
  end.

Definition fetched (w : list event) : list ImageBuffer :=
  flat_map fetched_of w.

(** The buffers that were unlocked, in order. *)
Definition unlocked_of (e : event) : list ImageBuffer :=
  match e with
  | Unlock b => [b]
  | _ => []
  end.

Definition unlocked (w : list event) : list ImageBuffer :=
  flat_map unlocked_of w.

(** The messages printed, in order. *)
Definition printed_of (e : event) : list string :=
  match e with
  | Print msg => [msg]
  | _ => []
  end.

Definition printed (w : list event) : list string := flat_map printed_of w.

(** What happened to the memory map of a cube: a frame written at an index
    of the sample axis, or a flush. *)
Inductive cube_op : Type :=
| W (index : Z)
| F.

Definition cube_op_of (e : event) : list cube_op :=
  match e with
  | MapWrite i _ => [W i]
  | MapFlush => [F]
  | _ => []
  end.

Definition cube_ops (w : list event) : list cube_op := flat_map cube_op_of w.

(** A computation that neither fetches nor unlocks. *)
Definition quiet {A} (m : Py Thread A) : Prop :=
  forall self,
    fetched (world (snd (m self))) = fetched (world self) /\
    unlocked (world (snd (m self))) = unlocked (world self).

(** A callback that neither fetches nor unlocks by itself, as are the
    callbacks embedded above. *)
Definition frame_neutral (p : callback) : Prop :=
  forall image_data self,
    fetched (world (snd (p image_data self))) = fetched (world self) /\
    unlocked (world (snd (p image_data self))) = unlocked (world self).

(** A run keeps the books of the buffers when every buffer fetched has been
    unlocked once, in order; a run that an exception ended has exactly the
    buffer of its last fetch still locked. *)
Definition balanced (r : outcome unit * Thread) : Prop :=
  match r with
  | (Ret _, self) => unlocked (world self) = fetched (world self)
  | (Exc _, self) =>
      exists buf, fetched (world self) = unlocked (world self) ++ [buf]
  end.

(** A tick on which the fetch succeeds, and one on which it times out. *)
Definition is_success (t : tick) : Prop :=
  match t with
  | Wait r _ _ => r = IS_SUCCESS
  | ExternalStop => False
  end.

Definition is_timeout (t : tick) : Prop :=
  match t with
  | Wait r _ _ => r <> IS_SUCCESS
  | ExternalStop => False
  end.

(** *** Sample inputs *)

Definition buf1 : ImageBuffer := {| mem_ptr := 4096; mem_id := 1 |}.

(** A worker as [GatherThread.__init__] leaves it. *)
Definition worker0 : Thread :=
  snd (GatherThread__init__ (Ret IS_SUCCESS) true blank).

(** A worker that saves [.png] files, as [MultiFrameThread.__init__]
    leaves it. *)
Definition saver0 : Thread :=
  snd (MultiFrameThread__init__ (Ret IS_SUCCESS) "/data" "img_" (-1) ".png"
         true [] blank).

(** A worker for five [.png] frames, as [MultiFrameThread.__init__]
    leaves it. *)
Definition saver5 : Thread :=
  snd (MultiFrameThread__init__ (Ret IS_SUCCESS) "/data" "img_" 5 ".png"
         true [] blank).

(** *** SaveThread, its constructor *)

(** [SaveThread.__init__] *)
Definition SaveThread__init__ (capture_video : outcome Z) (path_arg : string)
  (cp : bool) : Py Thread unit :=
  GatherThread__init__ capture_video cp ;;
  modify (with_path path_arg).

(** *** FrameThread

    [FrameThread.process] reads and writes the attribute [views] only, and
    calls the views; it is embedded over that attribute and the frames the
    views have been handed. *)

(** A view: [handle] records the frame, or raises. *)
Record View : Type := { view_id : Z; handle_raises : option exn }.

(** The attribute [views]: [None], one view, or a list of views. *)
Inductive views_attr : Type :=
| NoViews
| OneView (v : View)
| ViewList (vs : list View).

Record FrameThread : Type := {
  views : views_attr;
  handled : list (Z * ImageBuffer)
}.

(** [view.handle(image_data)] *)
Definition view_handle (v : View) (image_data : ImageData)
  : Py FrameThread unit :=
  match handle_raises v with
  | Some e => raise e
  | None =>
      modify (fun self =>
        {| views := views self;
           handled := handled self ++ [(view_id v, img_buffer image_data)] |})
  end.

(** [for view in self.views: view.handle(image_data)] *)
Fixpoint for_views (vs : list View) (image_data : ImageData)
  : Py FrameThread unit :=
  match vs with
  | [] => ret tt
  | v :: rest => view_handle v image_data ;; for_views rest image_data
  end.

(** Truth value of [self.views]: [None] and the empty list are false. *)
Definition views_truth (a : views_attr) : bool :=
  match a with
  | NoViews => false
  | OneView _ => true
  | ViewList [] => false
  | ViewList (_ :: _) => true
  end.

(** [FrameThread.process] *)
Definition FrameThread_process (image_data : ImageData)
  : Py FrameThread unit :=
  vs <- gets views ;;
  if views_truth vs then
    (match vs with
     | OneView v =>
         modify (fun self =>
           {| views := ViewList [v]; handled := handled self |})
     | _ => ret tt
     end) ;;
    vs <- gets views ;;
    match vs with
    | ViewList l => for_views l image_data
    | _ => raise TypeError
    end
  else ret tt.

(** *** Further observations *)

(** The files written, in order. *)
Definition imwrite_of (e : event) : list (string * ImageBuffer) :=
  match e with
  | Imwrite p b => [(p, b)]
  | _ => []
  end.

Definition imwrites (w : list event) : list (string * ImageBuffer) :=
  flat_map imwrite_of w.

(** The number of fetches made, successful or not. *)
Definition wait_of (e : event) : list unit :=
  match e with
  | WaitForNextImage _ _ => [tt]
  | _ => []
  end.

Definition waited (w : list event) : nat := List.length (flat_map wait_of w).

(** The first frame that a schedule delivers before any [stop()] from
    outside. *)
Fixpoint first_frame (ticks : list tick) : option ImageBuffer :=
  match ticks with
  | [] => None
  | ExternalStop :: _ => None
  | Wait r b _ :: rest => if r =? IS_SUCCESS then Some b else first_frame rest
  end.

(** A tick that is a fetch. *)
Definition is_wait (t : tick) : Prop :=
  match t with
  | Wait _ _ _ => True
  | ExternalStop => False
  end.

(** A computation that leaves an observation of the worker as it was. *)
Definition preserves {A X} (obs : Thread -> X) (m : Py Thread A) : Prop :=
  forall self, obs (snd (m self)) = obs self.

(** A callback that leaves the counter [d] alone and makes no fetch. *)
Definition counter_neutral (p : callback) : Prop :=
  forall image_data,
    preserves (fun self => (d self, waited (world self))) (p image_data).

(** A view that takes every frame. *)
Definition plain_view (n : Z) : View :=
  {| view_id := n; handle_raises := None |}.

End Threads.

(** ** camera.py *)

Module Camera.

(** Constants of [pyueye.ueye] that the module passes to the driver. *)
Definition IS_DONT_WAIT : Z := 0.
Definition IS_WAIT : Z := 1.
Definition IS_FORCE_VIDEO_STOP : Z := 16384.
Definition IS_GET_COLOR_MODE : Z := 32768.

(** [Rect] of [utils.py]. *)
Record Rect : Type := { x : Z; y : Z; width : Z; height : Z }.

(** The uEye driver: each entry point takes the camera handle (which the
    module may have reset to [None]) and its arguments, and answers with a
    return code and the values it writes through its output parameters.
    [D] is the state of the driver and of the device behind it.
    [get_bits_per_pixel] is the table of [utils.py]. *)
Class Driver (D : Type) : Type := {
  is_ExitCamera : option Z -> D -> Z * D;
  is_AOI_get : option Z -> D -> (Z * Rect) * D;
  is_SetColorMode : option Z -> Z -> D -> Z * D;
  is_FreeImageMem : option Z -> ImageBuffer -> D -> Z * D;
  is_AllocImageMem : option Z -> Z -> Z -> Z -> D -> (Z * ImageBuffer) * D;
  is_AddToSequence : option Z -> ImageBuffer -> D -> Z * D;
  is_InitImageQueue : option Z -> Z -> D -> Z * D;
  is_SetFrameRate : option Z -> Q -> D -> (Z * Q) * D;
  is_GetFramesPerSecond : option Z -> D -> (Z * Q) * D;
  is_GetFrameTimeRange : option Z -> D -> (Z * (Q * Q * Q)) * D;
  is_CaptureVideo : option Z -> Z -> D -> Z * D;
  is_StopLiveVideo : option Z -> Z -> D -> Z * D;
  is_WaitForNextImage : option Z -> Z -> D -> (Z * ImageBuffer) * D;
  is_UnlockSeqBuf : option Z -> ImageBuffer -> D -> Z * D;
  is_IO_gpio : option Z -> Z -> D -> Z * D;
  get_bits_per_pixel : Z -> outcome Z
}.

(** The attributes of a [Camera] object. *)
Record Camera : Type := {
  h_cam : option Z;
  buffer_count : Z;
  img_buffers : list ImageBuffer;
  current_fps : option Q
}.

(** [Camera.__init__] *)
Definition Camera__init__ (device_id count : Z) : Camera :=
  {| h_cam := Some device_id; buffer_count := count; img_buffers := [];
     current_fps := None |}.

Section Methods.

Context {D : Type} `{Driver D}.

(** A method runs over the object, the driver and the standard output. *)
Record State : Type := { self : Camera; drv : D; stdout : list string }.

Definition with_self (f : Camera -> Camera) (s : State) : State :=
  {| self := f (self s); drv := drv s; stdout := stdout s |}.

Definition set_h_cam (v : option Z) (c : Camera) : Camera :=
  {| h_cam := v; buffer_count := buffer_count c;
     img_buffers := img_buffers c; current_fps := current_fps c |}.

Definition set_img_buffers (v : list ImageBuffer) (c : Camera) : Camera :=
  {| h_cam := h_cam c; buffer_count := buffer_count c;
     img_buffers := v; current_fps := current_fps c |}.

Definition set_current_fps (v : Q) (c : Camera) : Camera :=
  {| h_cam := h_cam c; buffer_count := buffer_count c;
     img_buffers := img_buffers c; current_fps := Some v |}.

Local Open Scope py_scope.

(** A call into the driver. *)
Definition call {A} (f : D -> A * D) : Py State A :=
  fun s => let (a, dr) := f (drv s) in
           (Ret a, {| self := self s; drv := dr; stdout := stdout s |}).

(** [print(msg)] *)
Definition print (msg : string) : Py State unit :=
  modify (fun s => {| self := self s; drv := drv s;
                      stdout := stdout s ++ [msg] |}).

(** [Camera.handle] *)
Definition handle : Py State (option Z) := gets (fun s => h_cam (self s)).

(** [Camera.exit]; [None == ueye.IS_SUCCESS] is false. *)
Definition exit : Py State unit :=
  h <- handle ;;
  ret_code <-
    match h with
    | Some _ => r <- call (is_ExitCamera h) ;; ret (Some r)
    | None => ret None
    end ;;
  match ret_code with
  | Some r => if r =? IS_SUCCESS then modify (with_self (set_h_cam None))
              else ret tt
  | None => ret tt
  end.

(** [Camera.get_aoi] *)
Definition get_aoi : Py State Rect :=
  h <- handle ;;
  r <- call (is_AOI_get h) ;;
  ret (snd r).

(** [Camera.get_colormode] *)
Definition get_colormode : Py State Z :=
  h <- handle ;;
  call (is_SetColorMode h IS_GET_COLOR_MODE).

(** The first loop of [alloc]: every buffer held so far is freed. *)
Fixpoint free_buffers (buffers : list ImageBuffer) : Py State unit :=
  match buffers with
  | [] => ret tt
  | buff :: rest =>
      h <- handle ;;
      r <- call (is_FreeImageMem h buff) ;;
      check r ;;
      free_buffers rest
  end.

(** The second loop of [alloc], over [range(buffer_count)]. *)
Fixpoint create_buffers (n : nat) (rect : Rect) (bpp : Z) : Py State unit :=
  match n with
  | O => ret tt
  | S n' =>
      h <- handle ;;
      a <- call (is_AllocImageMem h (width rect) (height rect) bpp) ;;
      let buff := snd a in
      h <- handle ;;
      r <- call (is_AddToSequence h buff) ;;
      check r ;;
      bs <- gets (fun s => img_buffers (self s)) ;;
      modify (with_self (set_img_buffers (bs ++ [buff]))) ;;
      create_buffers n' rect bpp
  end.

(** [Camera.alloc] *)
Definition alloc : Py State unit :=
  rect <- get_aoi ;;
  cm <- get_colormode ;;
  bpp <- (fun s => (get_bits_per_pixel cm, s)) ;;
  bs <- gets (fun s => img_buffers (self s)) ;;
  free_buffers bs ;;
  modify (with_self (set_img_buffers [])) ;;
  n <- gets (fun s => buffer_count (self s)) ;;
  create_buffers (Z.to_nat n) rect bpp ;;
  h <- handle ;;
  _ <- call (is_InitImageQueue h 0) ;;
  ret tt.

(** [1/x] on floats. *)
Definition float_inv (v : Q) : Py State Q :=
  if Qeq_bool v 0 then raise ZeroDivisionError else ret (/ v)%Q.

(** [Camera.get_fps_range] *)
Definition get_fps_range : Py State (Q * Q) :=
  h <- handle ;;
  r <- call (is_GetFrameTimeRange h) ;;
  let '(ret_code, (mini, maxi, interv)) := r in
  check ret_code ;;
  lo <- float_inv maxi ;;
  hi <- float_inv mini ;;
  ret (lo, hi).

(** [a < b] on floats. *)
Definition Qltb (a b : Q) : bool := negb (Qle_bool b a).

(** [Camera.set_fps] *)
Definition set_fps (fps : Q) : Py State Q :=
  range <- get_fps_range ;;
  let '(mini, maxi) := range in
  let fps := if Qltb fps mini then mini else fps in
  let fps := if Qltb maxi fps then maxi else fps in
  h <- handle ;;
  r <- call (is_SetFrameRate h fps) ;;
  let '(ret_code, new_fps) := r in
  check ret_code ;;
  modify (with_self (set_current_fps new_fps)) ;;
  ret new_fps.

(** [Camera.get_fps] *)
Definition get_fps : Py State Q :=
  cached <- gets (fun s => current_fps (self s)) ;;
  match cached with
  | Some fps => ret fps
  | None =>
      h <- handle ;;
      r <- call (is_GetFramesPerSecond h) ;;
      let '(ret_code, fps) := r in
      check ret_code ;;
      ret fps
  end.

(** [1.5*(1/fps)+1] for [fps <> 0]: three float operations. *)
Definition timeout_seconds (fps : Q) : binary64 :=
  float_shift (float_scale (3 # 2) (round64 (1 / fps))) 1.

(** [Camera.__get_timeout] *)
Definition __get_timeout : Py State Z :=
  fps <- get_fps ;;
  let fps := if Qeq_bool fps 0 then 1%Q else fps in
  seconds <- int_of_binary64 (timeout_seconds fps) ;;
  ret (seconds * 1000).

(** The expression of [__get_timeout] evaluated in binary64. *)
Definition get_timeout_binary64 (fps : float) : option Z :=
  let fps := if (fps =? 0)%float then 1%float else fps in
  option_map (fun v => int_of_float v * 1000)
    (float_value (1.5 * (1 / fps) + 1)%float).

(** [__get_timeout] for a frame rate held as a binary64. *)
Definition get_timeout_of_float (fps : float) : option (outcome Z) :=
  option_map
    (fun f =>
       let f := if Qeq_bool f 0 then 1%Q else f in
       match timeout_seconds f with
       | Finite v => Ret (int_of_float v * 1000)
       | Infinity _ => Exc OverflowError
       end)
    (float_value fps).

(** [Camera.capture_video] *)
Definition capture_video (wait : bool) : Py State Z :=
  alloc ;;
  let wait_param := if wait then IS_WAIT else IS_DONT_WAIT in
  h <- handle ;;
  call (is_CaptureVideo h wait_param).

(** [Camera.stop_video] *)
Definition stop_video : Py State Z :=
  h <- handle ;;
  call (is_StopLiveVideo h IS_FORCE_VIDEO_STOP).

(** [Camera.set_gpio] *)
Definition set_gpio (state : Z) : Py State unit :=
  h <- handle ;;
  r <- call (is_IO_gpio h state) ;;
  check r.

(** [imdata.unlock()] *)
Definition unlock (imdata : ImageData) : Py State unit :=
  h <- handle ;;
  _ <- call (is_UnlockSeqBuf h (img_buffer imdata)) ;;
  ret tt.

(** The timeout a capture uses: the argument, or [__get_timeout()]. *)
Definition default_timeout (timeout : option Z) : Py State Z :=
  match timeout with
  | Some t => ret t
  | None => __get_timeout
  end.

(** [Camera.capture_image]; a frame is identified by its buffer. *)
Definition capture_image (timeout : option Z)
  : Py State (option ImageBuffer) :=
  timeout <- default_timeout timeout ;;
  _ <- capture_video false ;;
  h <- handle ;;
  r <- call (is_WaitForNextImage h timeout) ;;
  let '(ret_code, img_buffer) := r in
  if ret_code =? IS_SUCCESS then
    let imdata := {| img_buffer := img_buffer |} in
    let data := img_buffer in
    unlock imdata ;;
    _ <- stop_video ;;
    ret (Some data)
  else
    ret None.

(** The integers bound in the body of [capture_images]; its other locals
    are [self], [send_io], [ims], [img_buffer] and [imdata], and the names
    of the module are [ueye], [uEyeException], [Rect],
    [get_bits_per_pixel], [ImageBuffer], [check], [ImageData] and
    [Camera]. *)
Definition capture_images_scope (nmb timeout i ret_code : Z)
  : list (string * Z) :=
  [("nmb", nmb); ("timeout", timeout); ("i", i); ("ret", ret_code)].

Definition missed_warning (n : Z) : string :=
  ("Warning: Missed " ++ str_of_Z n ++ "th frame !")%string.

(** The [for i in range(nmb)] loop of [capture_images], over the indices
    left. *)
Fixpoint capture_loop (nmb timeout : Z) (indices : list Z)
  (ims : list (option ImageBuffer)) : Py State (list (option ImageBuffer)) :=
  match indices with
  | [] => ret ims
  | i :: rest =>
      h <- handle ;;
      r <- call (is_WaitForNextImage h timeout) ;;
      let '(ret_code, img_buffer) := r in
      ims <-
        (if ret_code =? IS_SUCCESS then
           let imdata := {| img_buffer := img_buffer |} in
           let ims := ims ++ [Some img_buffer] in
           unlock imdata ;;
           ret ims
         else
           n <- lookup_name (capture_images_scope nmb timeout i ret_code)
                  "d" ;;
           print (missed_warning n) ;;
           ret (ims ++ [None])) ;;
      capture_loop nmb timeout rest ims
  end.

(** [range(n)] *)
Definition range (n : Z) : list Z := List.map Z.of_nat (seq 0 (Z.to_nat n)).

(** [Camera.capture_images] *)
Definition capture_images (nmb : Z) (timeout : option Z) (send_io : bool)
  : Py State (list (option ImageBuffer)) :=
  timeout <- default_timeout timeout ;;
  _ <- capture_video false ;;
  (if send_io then set_gpio 1 else ret tt) ;;
  ims <- capture_loop nmb timeout (range nmb) [] ;;
  _ <- stop_video ;;
  (if send_io then set_gpio 0 else ret tt) ;;
  ret ims.

End Methods.

Arguments State D : clear implicits.

(** *** A scripted driver

    A driver that plays back a script: the codes [is_ExitCamera] returns in
    turn, the answers of [is_WaitForNextImage] in turn (a timeout when none
    is left), a fixed frame time range, the frame rate it reports for a
    requested one, and the frame rate it measures.  Every other call
    succeeds.  It counts the calls it receives and keeps the timeouts it was
    asked to wait for. *)
Record Script : Type := {
  exit_codes : list Z;
  waits : list (Z * ImageBuffer);
  time_range : Q * Q * Q;
  report_fps : Q -> Q;
  measured_fps : Q;
  calls : nat;
  seen_timeouts : list Z
}.

Definition IS_TIMED_OUT : Z := 122.

Definition called (s : Script) : Script :=
  {| exit_codes := exit_codes s; waits := waits s;
     time_range := time_range s; report_fps := report_fps s;
     measured_fps := measured_fps s; calls := S (calls s);
     seen_timeouts := seen_timeouts s |}.

Definition pop_exit (s : Script) : Z * Script :=
  match exit_codes s with
  | [] => (IS_SUCCESS, called s)
  | c :: rest =>
      (c, called {| exit_codes := rest; waits := waits s;
                    time_range := time_range s; report_fps := report_fps s;
                    measured_fps := measured_fps s; calls := calls s;
                    seen_timeouts := seen_timeouts s |})
  end.

Definition pop_wait (timeout : Z) (s : Script)
  : (Z * ImageBuffer) * Script :=
  let seen := seen_timeouts s ++ [timeout] in
  match waits s with
  | [] =>
      ((IS_TIMED_OUT, {| mem_ptr := 0; mem_id := 0 |}),
       called {| exit_codes := exit_codes s; waits := [];
                 time_range := time_range s; report_fps := report_fps s;
                 measured_fps := measured_fps s; calls := calls s;
                 seen_timeouts := seen |})
  | w :: rest =>
      (w, called {| exit_codes := exit_codes s; waits := rest;
                    time_range := time_range s; report_fps := report_fps s;
                    measured_fps := measured_fps s; calls := calls s;
                    seen_timeouts := seen |})
  end.

#[export] Instance scripted : Driver Script := {
  is_ExitCamera _ s := pop_exit s;
  is_AOI_get _ s :=
    ((IS_SUCCESS, {| x := 0; y := 0; width := 640; height := 480 |}),
     called s);
  is_SetColorMode _ _ s := (6, called s);
  is_FreeImageMem _ _ s := (IS_SUCCESS, called s);
  is_AllocImageMem _ _ _ _ s :=
    ((IS_SUCCESS, {| mem_ptr := 4096 * Z.of_nat (S (calls s));
                     mem_id := Z.of_nat (S (calls s)) |}), called s);
  is_AddToSequence _ _ s := (IS_SUCCESS, called s);
  is_InitImageQueue _ _ s := (IS_SUCCESS, called s);
  is_SetFrameRate _ fps s := ((IS_SUCCESS, report_fps s fps), called s);
  is_GetFramesPerSecond _ s := ((IS_SUCCESS, measured_fps s), called s);
  is_GetFrameTimeRange _ s := ((IS_SUCCESS, time_range s), called s);
  is_CaptureVideo _ _ s := (IS_SUCCESS, called s);
  is_StopLiveVideo _ _ s := (IS_SUCCESS, called s);
  is_WaitForNextImage _ timeout s := pop_wait timeout s;
  is_UnlockSeqBuf _ _ s := (IS_SUCCESS, called s);
  is_IO_gpio _ _ s := (IS_SUCCESS, called s);
  get_bits_per_pixel _ := Ret 8
}.

(** *** Sample inputs *)

(** A device with frame times from 1/30 s to 1 s that runs at 30 fps and
    reports the frame rate it was asked for. *)
Definition device30 : Script :=
  {| exit_codes := []; waits := []; time_range := ((1 # 30)%Q, 1%Q, (1 # 1000)%Q);
     report_fps := fun fps => fps; measured_fps := 30%Q; calls := 0;
     seen_timeouts := [] |}.

(** The same device, closing at the second request only. *)
Definition device_busy : Script :=
  {| exit_codes := [1; IS_SUCCESS]; waits := [];
     time_range := ((1 # 30)%Q, 1%Q, (1 # 1000)%Q);
     report_fps := fun fps => fps; measured_fps := 30%Q; calls := 0;
     seen_timeouts := [] |}.

(** A device whose achievable frame rates lie 1/100 above the requested
    ones. *)
Definition device_offset : Script :=
  {| exit_codes := []; waits := [];
     time_range := ((1 # 30)%Q, 1%Q, (1 # 1000)%Q);
     report_fps := fun fps => (fps + (1 # 100))%Q; measured_fps := 30%Q;
     calls := 0; seen_timeouts := [] |}.

(** A device that delivers one frame and then none in time. *)
Definition device_one_frame : Script :=
  {| exit_codes := [];
     waits := [(IS_SUCCESS, {| mem_ptr := 4096; mem_id := 1 |})];
     time_range := ((1 # 30)%Q, 1%Q, (1 # 1000)%Q);
     report_fps := fun fps => fps; measured_fps := 30%Q; calls := 0;
     seen_timeouts := [] |}.

(** An open camera on a scripted device. *)
Definition opened (dev : Script) : State Script :=
  {| self := Camera__init__ 0 3; drv := dev; stdout := [] |}.

(** *** Further entry points of the driver and the methods that use them *)

(** [ueye.is_InitCamera], and [ueye.is_PixelClock] with the commands
    [IS_PIXELCLOCK_CMD_GET_RANGE] (it fills minimum, maximum and increment)
    and [IS_PIXELCLOCK_CMD_SET]. *)
Class DriverExt (D : Type) : Type := {
  is_InitCamera : option Z -> D -> Z * D;
  is_PixelClock_get_range : option Z -> D -> (Z * (Z * Z * Z)) * D;
  is_PixelClock_set : option Z -> Z -> D -> Z * D
}.




Section MoreMethods.

Context {D : Type} `{Driver D} `{DriverExt D}.

Local Open Scope py_scope.

(** [Camera.init] *)
Definition init : Py (State D) Z :=
  h <- handle ;;
  r <- call (is_InitCamera h) ;;
  if negb (r =? IS_SUCCESS) then
    modify (with_self (set_h_cam None)) ;;
    raise (uEyeException r)
  else
    ret r.

(** [Camera.__enter__]; the object it returns is the state. *)
Definition __enter__ : Py (State D) unit :=
  _ <- init ;;
  ret tt.

(** [Camera.__exit__] *)
Definition __exit__ : Py (State D) unit := exit.


(** The buffers that the second loop of [alloc] has registered when it
    starts with the driver in [d0] and every registration succeeds, and
    the driver they leave behind. *)
Inductive registers (h : option Z) (rect : Rect) (bpp : Z)
  : D -> list ImageBuffer -> D -> Prop :=
| registers_nil (d0 : D) : registers h rect bpp d0 [] d0
| registers_cons (d0 d1 : D) (bufs : list ImageBuffer) :
    fst (is_AddToSequence h
           (snd (fst (is_AllocImageMem h (width rect) (height rect) bpp d0)))
           (snd (is_AllocImageMem h (width rect) (height rect) bpp d0)))
    = IS_SUCCESS ->
    registers h rect bpp
      (snd (is_AddToSequence h
              (snd (fst (is_AllocImageMem h (width rect) (height rect) bpp
                           d0)))
              (snd (is_AllocImageMem h (width rect) (height rect) bpp d0))))
      bufs d1 ->
    registers h rect bpp d0
      (snd (fst (is_AllocImageMem h (width rect) (height rect) bpp d0))
       :: bufs) d1.

(** The part of [alloc] before the list of buffers is reset: the settings
    are read and the buffers held so far are freed. *)
Definition alloc_settings : Py (State D) (Rect * Z) :=
  rect <- get_aoi ;;
  cm <- get_colormode ;;
  bpp <- (fun s => (get_bits_per_pixel cm, s)) ;;
  bs <- gets (fun s => img_buffers (self s)) ;;
  free_buffers bs ;;
  ret (rect, bpp).

End MoreMethods.

(** The scripted driver has one device, of id 0, with pixel clocks from 7
    to 35 MHz. *)
#[export] Instance scripted_ext : DriverExt Script := {
  is_InitCamera h s :=
    (match h with Some 0 => IS_SUCCESS | _ => 3 end, called s);
  is_PixelClock_get_range _ s := ((IS_SUCCESS, (7, 35, 1)), called s);
  is_PixelClock_set _ v s :=
    (if (7 <=? v) && (v <=? 35) then IS_SUCCESS else 125, called s)
}.

(** A camera object for the device of id [device_id], not yet opened. *)
Definition camera_for (device_id : Z) (dev : Script) : State Script :=
  {| self := Camera__init__ device_id 3; drv := dev; stdout := [] |}.

(** A scripted device with room for [room] more buffers in its sequence:
    [is_AddToSequence] returns [IS_NO_SUCCESS] once the room is used up;
    every other call is the scripted one. *)
Record Limited : Type := { base : Script; room : nat }.

Definition IS_NO_SUCCESS : Z := -1.

Definition lift {A} (r : A * Script) (s : Limited) : A * Limited :=
  (fst r, {| base := snd r; room := room s |}).

#[export] Instance limited : Driver Limited := {
  is_ExitCamera h s := lift (is_ExitCamera h (base s)) s;
  is_AOI_get h s := lift (is_AOI_get h (base s)) s;
  is_SetColorMode h m s := lift (is_SetColorMode h m (base s)) s;
  is_FreeImageMem h b s := lift (is_FreeImageMem h b (base s)) s;
  is_AllocImageMem h w ht bpp s :=
    lift (is_AllocImageMem h w ht bpp (base s)) s;
  is_AddToSequence h b s :=
    match room s with
    | O => (IS_NO_SUCCESS, {| base := called (base s); room := O |})
    | S n => (IS_SUCCESS, {| base := called (base s); room := n |})
    end;
  is_InitImageQueue h m s := lift (is_InitImageQueue h m (base s)) s;
  is_SetFrameRate h f s := lift (is_SetFrameRate h f (base s)) s;
  is_GetFramesPerSecond h s := lift (is_GetFramesPerSecond h (base s)) s;
  is_GetFrameTimeRange h s := lift (is_GetFrameTimeRange h (base s)) s;
  is_CaptureVideo h w s := lift (is_CaptureVideo h w (base s)) s;
  is_StopLiveVideo h m s := lift (is_StopLiveVideo h m (base s)) s;
  is_WaitForNextImage h t s := lift (is_WaitForNextImage h t (base s)) s;
  is_UnlockSeqBuf h b s := lift (is_UnlockSeqBuf h b (base s)) s;
  is_IO_gpio h v s := lift (is_IO_gpio h v (base s)) s;
  get_bits_per_pixel m := get_bits_per_pixel (D := Script) m
}.

(** An open camera with three buffers to allocate on a device that has
    room for two. *)
Definition cramped : State Limited :=
  {| self := Camera__init__ 0 3;
     drv := {| base := device30; room := 2 |};
     stdout := [] |}.


End Camera.

(** ** Properties of the float model *)

(** ** Rounding to the nearest integer *)

Lemma round_half_even_nearest (x : Q) :
  (Qabs (x - inject_Z (round_half_even x)) <= 1 # 2)%Q /\
  ((Qabs (x - inject_Z (round_half_even x)) == 1 # 2)%Q ->
   Z.even (round_half_even x) = true).
Proof.
  unfold round_half_even.
  pose proof (Qfloor_le x) as Hlo. pose proof (Qlt_floor x) as Hhi.
  rewrite inject_Z_plus in Hhi. change (inject_Z 1) with 1%Q in Hhi.
  destruct (Qcompare (x - inject_Z (Qfloor x)) (1 # 2)) eqn:C.
  - apply Qeq_alt in C.
    destruct (Z.even (Qfloor x)) eqn:Ev.
    + split; [|intros _; exact Ev].
      rewrite Qabs_pos by lra. lra.
    + split.
      * rewrite inject_Z_plus. change (inject_Z 1) with 1%Q.
        rewrite Qabs_neg by lra. lra.
      * intros _. rewrite Z.even_add, Ev. reflexivity.
  - apply Qlt_alt in C. split.
    + rewrite Qabs_pos by lra. lra.
    + rewrite Qabs_pos by lra. intros E. lra.
  - apply Qgt_alt in C. rewrite inject_Z_plus. change (inject_Z 1) with 1%Q.
    split.
    + rewrite Qabs_neg by lra. lra.
    + rewrite Qabs_neg by lra. intros E. lra.
Qed.

Lemma round_half_even_comp (x y : Q) :
  (x == y)%Q -> round_half_even x = round_half_even y.
Proof.
  intros E. unfold round_half_even. rewrite (Qfloor_comp x y E).
  assert (E' : (x - inject_Z (Qfloor y) == y - inject_Z (Qfloor y))%Q)
    by now rewrite E.
  now rewrite (Qcompare_comp _ _ E' (1 # 2) (1 # 2) (Qeq_refl _)).
Qed.

Lemma round_half_even_within (x : Q) :
  (inject_Z (round_half_even x) - (1 # 2) <= x)%Q /\
  (x <= inject_Z (round_half_even x) + (1 # 2))%Q.
Proof.
  destruct (round_half_even_nearest x) as [H _].
  apply Qabs_Qle_condition in H. destruct H. split; lra.
Qed.

Lemma round_half_even_mono (x y : Q) :
  (x <= y)%Q -> round_half_even x <= round_half_even y.
Proof.
  intros Hxy.
  destruct (Z_le_gt_dec (round_half_even x) (round_half_even y))
    as [Hle|Hgt]; [exact Hle|exfalso].
  destruct (round_half_even_within x) as [Hx _].
  destruct (round_half_even_within y) as [_ Hy].
  assert (H1 : (inject_Z (round_half_even y) + 1
                <= inject_Z (round_half_even x))%Q).
  { rewrite <- (inject_Z_plus _ 1), <- Zle_Qle. lia. }
  assert (E : (x == y)%Q) by lra.
  rewrite (round_half_even_comp x y E) in Hgt. lia.
Qed.

Lemma round_half_even_apart (x y : Q) :
  (x + 1 < y)%Q -> round_half_even x < round_half_even y.
Proof.
  intros Hxy.
  destruct (round_half_even_within x) as [Hx _].
  destruct (round_half_even_within y) as [_ Hy].
  rewrite Zlt_Qlt. lra.
Qed.

Lemma round_half_even_Z (n : Z) : round_half_even (inject_Z n) = n.
Proof.
  unfold round_half_even. rewrite Qfloor_Z.
  assert (E : (inject_Z n - inject_Z n == 0)%Q) by ring.
  now rewrite (Qcompare_comp _ _ E (1 # 2) (1 # 2) (Qeq_refl _)).
Qed.

(** ** Powers of two *)

Lemma pow2_pos (e : Z) : (0 < pow2 e)%Q.
Proof. apply Qpower_0_lt. reflexivity. Qed.

Lemma pow2_add (a b : Z) : (pow2 (a + b) == pow2 a * pow2 b)%Q.
Proof. apply Qpower_plus. discriminate. Qed.

Lemma pow2_le (a b : Z) : a <= b -> (pow2 a <= pow2 b)%Q.
Proof. intros L. apply Qpower_le_compat_l; [exact L|discriminate]. Qed.

Lemma pow2_lt (a b : Z) : a < b -> (pow2 a < pow2 b)%Q.
Proof. intros L. apply Qpower_lt_compat_l; [exact L|reflexivity]. Qed.

Lemma pow2_lt_inv (a b : Z) : (pow2 a < pow2 b)%Q -> a < b.
Proof. intros L. apply (Qpower_lt_compat_l_inv (2 # 1)); [exact L|reflexivity]. Qed.

Lemma pow2_Z (e : Z) : 0 <= e -> (pow2 e == inject_Z (2 ^ e))%Q.
Proof. intros L. symmetry. apply (Zpower_Qpower 2 e L). Qed.

Lemma pow2_sub (a b : Z) : (pow2 (a - b) == pow2 a / pow2 b)%Q.
Proof.
  pose proof (pow2_pos b) as Hb.
  replace a with ((a - b) + b) at 2 by ring. rewrite pow2_add.
  field. lra.
Qed.

(** ** The binary exponent of a positive rational *)

Lemma ilog2_spec (x : Q) :
  (0 < x)%Q -> (pow2 (ilog2 x) <= x)%Q /\ (x < pow2 (ilog2 x + 1))%Q.
Proof.
  intros Hx. unfold ilog2.
  destruct x as [n dn]. cbn [Qnum Qden].
  assert (Hn : 0 < n) by (unfold Qlt in Hx; cbn in Hx; lia).
  destruct (Z.log2_spec n Hn) as [Hn1 Hn2].
  destruct (Z.log2_spec (Zpos dn) (Pos2Z.is_pos dn)) as [Hd1 Hd2].
  pose proof (Z.log2_nonneg n) as Ln.
  pose proof (Z.log2_nonneg (Zpos dn)) as Ld.
  set (a := Z.log2 n) in *. set (b := Z.log2 (Zpos dn)) in *.
  assert (Ex : (n # dn == inject_Z n / inject_Z (Zpos dn))%Q)
    by apply Qmake_Qdiv.
  assert (Dpos : (0 < inject_Z (Zpos dn))%Q)
    by (rewrite <- (Zlt_Qlt 0); lia).
  assert (Q1 : (pow2 a <= inject_Z n)%Q)
    by (rewrite pow2_Z by lia; rewrite <- Zle_Qle; exact Hn1).
  assert (Q2 : (inject_Z n < pow2 (a + 1))%Q).
  { rewrite pow2_Z by lia. rewrite <- Zlt_Qlt.
    now replace (a + 1) with (Z.succ a) by lia. }
  assert (Q3 : (pow2 b <= inject_Z (Zpos dn))%Q)
    by (rewrite pow2_Z by lia; rewrite <- Zle_Qle; exact Hd1).
  assert (Q4 : (inject_Z (Zpos dn) < pow2 (b + 1))%Q).
  { rewrite pow2_Z by lia. rewrite <- Zlt_Qlt.
    now replace (b + 1) with (Z.succ b) by lia. }
  pose proof (pow2_pos a) as Pa. pose proof (pow2_pos b) as Pb.
  pose proof (pow2_pos (a - b)) as Pab.
  assert (Up : (n # dn < pow2 (a - b + 1))%Q).
  { rewrite Ex. apply Qlt_shift_div_r; [exact Dpos|].
    assert (E : (pow2 (a + 1) == pow2 (a - b + 1) * pow2 b)%Q)
      by (rewrite <- pow2_add; now replace (a - b + 1 + b) with (a + 1) by ring).
    assert (M : (pow2 (a - b + 1) * pow2 b
                 <= pow2 (a - b + 1) * inject_Z (Zpos dn))%Q)
      by (apply Qmult_le_l; [apply pow2_pos|exact Q3]).
    lra. }
  assert (Lo : (pow2 (a - b - 1) < n # dn)%Q).
  { rewrite Ex. apply Qlt_shift_div_l; [exact Dpos|].
    assert (E : (pow2 a == pow2 (a - b - 1) * pow2 (b + 1))%Q)
      by (rewrite <- pow2_add; now replace (a - b - 1 + (b + 1)) with a by ring).
    assert (M : (pow2 (a - b - 1) * inject_Z (Zpos dn)
                 < pow2 (a - b - 1) * pow2 (b + 1))%Q)
      by (apply Qmult_lt_l; [apply pow2_pos|exact Q4]).
    lra. }
  destruct (Qle_bool (pow2 (a - b)) (n # dn)) eqn:C.
  - apply Qle_bool_iff in C. split; [exact C|exact Up].
  - assert (C' : (n # dn < pow2 (a - b))%Q).
    { apply Qnot_le_lt. intros L. apply Qle_bool_iff in L. congruence. }
    split; [apply Qlt_le_weak; exact Lo|].
    now replace (a - b - 1 + 1) with (a - b) by ring.
Qed.

Lemma ilog2_unique (x : Q) (k : Z) :
  (pow2 k <= x)%Q -> (x < pow2 (k + 1))%Q -> ilog2 x = k.
Proof.
  intros L U.
  assert (Hx : (0 < x)%Q) by (pose proof (pow2_pos k); lra).
  destruct (ilog2_spec x Hx) as [L' U'].
  assert (A : ilog2 x < k + 1)
    by (apply pow2_lt_inv; eapply Qle_lt_trans; eassumption).
  assert (B : k < ilog2 x + 1)
    by (apply pow2_lt_inv; eapply Qle_lt_trans; eassumption).
  lia.
Qed.

Lemma ilog2_mono (x y : Q) : (0 < x)%Q -> (x <= y)%Q -> ilog2 x <= ilog2 y.
Proof.
  intros Hx Hxy.
  destruct (ilog2_spec x Hx) as [L _].
  destruct (ilog2_spec y) as [_ U]; [lra|].
  assert (A : ilog2 x < ilog2 y + 1) by (apply pow2_lt_inv; lra).
  lia.
Qed.

(** ** Rounding to a multiple of a power of two *)

Lemma round_at_comp (e : Z) (x y : Q) :
  (x == y)%Q -> (round_at e x == round_at e y)%Q.
Proof.
  intros E. unfold round_at.
  assert (E' : (x / pow2 e == y / pow2 e)%Q) by now rewrite E.
  now rewrite (round_half_even_comp _ _ E').
Qed.

Lemma round_at_mono (e : Z) (x y : Q) :
  (x <= y)%Q -> (round_at e x <= round_at e y)%Q.
Proof.
  intros L. unfold round_at. pose proof (pow2_pos e) as P.
  apply Qmult_le_compat_r; [|lra].
  rewrite <- Zle_Qle. apply round_half_even_mono.
  unfold Qdiv. apply Qmult_le_compat_r; [exact L|].
  apply Qlt_le_weak, Qinv_lt_0_compat, P.
Qed.

Lemma round_at_grid (e g m : Z) :
  e <= g ->
  (round_at e (inject_Z m * pow2 g) == inject_Z m * pow2 g)%Q.
Proof.
  intros L. unfold round_at. pose proof (pow2_pos e) as P.
  assert (E : (inject_Z m * pow2 g / pow2 e
               == inject_Z (m * 2 ^ (g - e)))%Q).
  { rewrite inject_Z_mult, <- pow2_Z by lia. rewrite pow2_sub. field. lra. }
  rewrite (round_half_even_comp _ _ E), round_half_even_Z.
  rewrite inject_Z_mult, <- pow2_Z by lia. rewrite pow2_sub. field. lra.
Qed.

Lemma round_at_error (e : Z) (x : Q) :
  (Qabs (round_at e x - x) <= (1 # 2) * pow2 e)%Q.
Proof.
  unfold round_at. pose proof (pow2_pos e) as P.
  destruct (round_half_even_within (x / pow2 e)) as [Lo Hi].
  set (n := inject_Z (round_half_even (x / pow2 e))) in *.
  assert (Ex : (x == x / pow2 e * pow2 e)%Q) by (field; lra).
  assert (M1 : ((n - (1 # 2)) * pow2 e <= x / pow2 e * pow2 e)%Q)
    by (apply Qmult_le_compat_r; lra).
  assert (M2 : (x / pow2 e * pow2 e <= (n + (1 # 2)) * pow2 e)%Q)
    by (apply Qmult_le_compat_r; lra).
  apply Qabs_Qle_condition. split; lra.
Qed.

(** ** The nearest binary64 *)

Lemma nearest64_eq (x : Q) :
  (nearest64 x == round_at (exponent64 (Qred x)) x)%Q.
Proof.
  unfold nearest64. rewrite Qred_correct.
  apply round_at_comp, Qred_correct.
Qed.

Lemma nearest64_comp (x y : Q) : (x == y)%Q -> nearest64 x = nearest64 y.
Proof. intros E. unfold nearest64. now rewrite (Qred_complete x y E). Qed.

Lemma round_at_0 (e : Z) : (round_at e 0 == 0)%Q.
Proof.
  pose proof (round_at_grid e e 0 (Z.le_refl e)) as G.
  assert (E : (0 == inject_Z 0 * pow2 e)%Q) by ring.
  rewrite (round_at_comp e _ _ E), G. ring.
Qed.

Lemma nearest64_nonneg (x : Q) : (0 <= x)%Q -> (0 <= nearest64 x)%Q.
Proof.
  intros L. rewrite nearest64_eq.
  rewrite <- (round_at_0 (exponent64 (Qred x))). now apply round_at_mono.
Qed.

(** For [x > 0] the exponent is taken from the binade of [x]. *)
Lemma exponent64_pos (x : Q) (k : Z) :
  (pow2 k <= x)%Q -> (x < pow2 (k + 1))%Q ->
  exponent64 (Qred x) = Z.max (k - 52) (-1074).
Proof.
  intros L U. unfold exponent64. f_equal. f_equal.
  assert (Hx : (0 < x)%Q) by (pose proof (pow2_pos k); lra).
  apply ilog2_unique; rewrite Qabs_pos, Qred_correct;
    try assumption; rewrite ?Qred_correct; lra.
Qed.

Lemma nearest64_mono (x y : Q) :
  (0 <= x)%Q -> (x <= y)%Q -> (nearest64 x <= nearest64 y)%Q.
Proof.
  intros Hx Hxy.
  destruct (Qlt_le_dec 0 x) as [Px|Zx].
  2:{ assert (E : (x == 0)%Q) by lra.
      rewrite (nearest64_comp x 0 E).
      assert (E0 : (nearest64 0 == 0)%Q) by (rewrite nearest64_eq; apply round_at_0).
      rewrite E0. apply nearest64_nonneg. lra. }
  destruct (ilog2_spec x Px) as [Lx Ux].
  destruct (ilog2_spec y) as [Ly Uy]; [lra|].
  pose proof (ilog2_mono x y Px Hxy) as Hk.
  rewrite !nearest64_eq.
  rewrite (exponent64_pos x _ Lx Ux), (exponent64_pos y _ Ly Uy).
  set (kx := ilog2 x) in *. set (ky := ilog2 y) in *.
  destruct (Z.eq_dec (Z.max (kx - 52) (-1074)) (Z.max (ky - 52) (-1074)))
    as [Ee|Ne].
  - rewrite Ee. now apply round_at_mono.
  - assert (Hlt : kx < ky) by lia.
    assert (Hey : Z.max (ky - 52) (-1074) = ky - 52) by lia.
    assert (Hex : Z.max (kx - 52) (-1074) <= ky) by lia.
    rewrite Hey.
    apply Qle_trans with (pow2 ky).
    + assert (G : (round_at (Z.max (kx - 52) (-1074)) (inject_Z 1 * pow2 ky)
                   == inject_Z 1 * pow2 ky)%Q)
        by (apply round_at_grid; exact Hex).
      assert (B : (x <= inject_Z 1 * pow2 ky)%Q).
      { change (inject_Z 1) with 1%Q. rewrite Qmult_1_l.
        apply Qle_trans with (pow2 (kx + 1)); [lra|]. apply pow2_le. lia. }
      pose proof (round_at_mono (Z.max (kx - 52) (-1074)) _ _ B) as M.
      rewrite G in M. change (inject_Z 1) with 1%Q in M. lra.
    + assert (G : (round_at (ky - 52) (inject_Z 1 * pow2 ky)
                   == inject_Z 1 * pow2 ky)%Q)
        by (apply round_at_grid; lia).
      assert (B : (inject_Z 1 * pow2 ky <= y)%Q)
        by (change (inject_Z 1) with 1%Q; lra).
      pose proof (round_at_mono (ky - 52) _ _ B) as M.
      rewrite G in M. change (inject_Z 1) with 1%Q in M. lra.
Qed.

Lemma exponent64_le (x : Q) (k : Z) :
  ~ (x == 0)%Q -> (Qabs x < pow2 (k + 1))%Q -> -1074 <= k - 52 ->
  exponent64 (Qred x) <= k - 52.
Proof.
  intros Nz U G.
  assert (Pa : (0 < Qabs x)%Q).
  { pose proof (Qabs_nonneg x) as N.
    destruct (Qlt_le_dec 0 (Qabs x)) as [P|Z0]; [exact P|].
    exfalso. apply Nz. assert (E : (Qabs x == 0)%Q) by lra.
    revert E. apply Qabs_case; intros; lra. }
  assert (Ea : (Qabs (Qred x) == Qabs x)%Q) by now rewrite Qred_correct.
  destruct (ilog2_spec (Qabs (Qred x))) as [L _]; [lra|].
  assert (A : ilog2 (Qabs (Qred x)) < k + 1) by (apply pow2_lt_inv; lra).
  unfold exponent64. lia.
Qed.

(** A number with at most 53 significant bits and no bit below [2^-1074]
    is a binary64 (when it is below [2^1024]). *)
Lemma nearest64_exact (m g : Z) :
  Z.abs m < 2 ^ 53 -> -1074 <= g ->
  (nearest64 (inject_Z m * pow2 g) == inject_Z m * pow2 g)%Q.
Proof.
  intros Hm Hg. rewrite nearest64_eq.
  destruct (Z.eq_dec m 0) as [->|Nz].
  - assert (E : (inject_Z 0 * pow2 g == 0)%Q) by ring.
    rewrite (round_at_comp _ _ _ E), round_at_0. ring.
  - apply round_at_grid.
    pose proof (pow2_pos g) as P.
    apply Z.le_trans with ((g + 52) - 52); [|lia].
    apply exponent64_le; [| |lia].
    + intros E. apply Nz.
      assert (E' : (inject_Z m == 0)%Q).
      { apply (Qmult_integral_l (pow2 g)); [lra|].
        rewrite Qmult_comm. exact E. }
      change 0%Q with (inject_Z 0) in E'.
      now apply (proj1 (inject_Z_injective m 0)).
    + rewrite Qabs_Qmult, (Qabs_pos (pow2 g)) by lra.
      replace (g + 52 + 1) with (53 + g) by ring. rewrite pow2_add.
      apply Qmult_lt_compat_r; [exact P|].
      rewrite pow2_Z by lia.
      assert (Ea : (Qabs (inject_Z m) == inject_Z (Z.abs m))%Q) by reflexivity.
      rewrite Ea, <- Zlt_Qlt. exact Hm.
Qed.

(** The error of rounding: half a unit in the last place. *)
Lemma nearest64_error (x : Q) :
  (Qabs (nearest64 x - x) <= pow2 (-53) * Qabs x + pow2 (-1075))%Q.
Proof.
  pose proof (Qabs_nonneg x) as N.
  pose proof (pow2_pos (-53)) as P53. pose proof (pow2_pos (-1075)) as P1075.
  assert (M0 : (0 <= pow2 (-53) * Qabs x)%Q)
    by (apply Qmult_le_0_compat; lra).
  destruct (Qeq_dec x 0) as [Zx|Nz].
  { rewrite (nearest64_comp x 0 Zx).
    assert (E0 : (nearest64 0 == 0)%Q)
      by (rewrite nearest64_eq; apply round_at_0).
    assert (E1 : (nearest64 0 - x == 0)%Q) by (rewrite E0, Zx; ring).
    rewrite E1. change (Qabs 0) with 0%Q. lra. }
  rewrite nearest64_eq.
  pose proof (round_at_error (exponent64 (Qred x)) x) as E.
  eapply Qle_trans; [exact E|].
  assert (Half : forall e, ((1 # 2) * pow2 e == pow2 (e - 1))%Q).
  { intros e. rewrite pow2_sub. change (pow2 1) with (2 # 1)%Q. field. }
  rewrite Half.
  unfold exponent64.
  destruct (Z.max_spec (ilog2 (Qabs (Qred x)) - 52) (-1074)) as [[_ ->]|[Hge ->]].
  - change (-1074 - 1) with (-1075). lra.
  - set (k := ilog2 (Qabs (Qred x))) in *.
    assert (Pa : (0 < Qabs (Qred x))%Q).
    { destruct (Qlt_le_dec 0 (Qabs (Qred x))) as [P|Z0]; [exact P|].
      exfalso. apply Nz.
      assert (Ez : (Qabs (Qred x) == 0)%Q)
        by (pose proof (Qabs_nonneg (Qred x)); lra).
      rewrite <- (Qred_correct x).
      revert Ez. apply Qabs_case; intros; lra. }
    destruct (ilog2_spec _ Pa) as [L _]. fold k in L.
    rewrite Qred_correct in L.
    replace (k - 52 - 1) with (-53 + k) by ring. rewrite pow2_add.
    assert (M : (pow2 (-53) * pow2 k <= pow2 (-53) * Qabs x)%Q)
      by (apply Qmult_le_l; [exact P53|exact L]).
    lra.
Qed.

Lemma nearest64_0 : (nearest64 0 == 0)%Q.
Proof. rewrite nearest64_eq. apply round_at_0. Qed.

(** Rounding does not cross a binary64. *)
Lemma nearest64_le_grid (x b : Q) (m g : Z) :
  (b == inject_Z m * pow2 g)%Q -> Z.abs m < 2 ^ 53 -> -1074 <= g ->
  (0 <= x)%Q -> (x <= b)%Q -> (nearest64 x <= b)%Q.
Proof.
  intros Eb Hm Hg Hx Hxb.
  pose proof (nearest64_mono x b Hx Hxb) as M.
  rewrite (nearest64_comp b _ Eb), (nearest64_exact m g Hm Hg), <- Eb in M.
  exact M.
Qed.

Lemma nearest64_ge_grid (x b : Q) (m g : Z) :
  (b == inject_Z m * pow2 g)%Q -> Z.abs m < 2 ^ 53 -> -1074 <= g ->
  (0 <= b)%Q -> (b <= x)%Q -> (b <= nearest64 x)%Q.
Proof.
  intros Eb Hm Hg Hb Hbx.
  pose proof (nearest64_mono b x Hb Hbx) as M.
  rewrite (nearest64_comp b _ Eb), (nearest64_exact m g Hm Hg), <- Eb in M.
  exact M.
Qed.

(** ** Overflow *)

Lemma round64_finite (x : Q) :
  (Qabs (nearest64 x) < pow2 1024)%Q -> round64 x = Finite (nearest64 x).
Proof.
  intros L. unfold round64. cbv zeta.
  destruct (Qle_bool (pow2 1024) (Qabs (nearest64 x))) eqn:C; [|reflexivity].
  apply Qle_bool_iff in C. lra.
Qed.

Lemma max_float_finite : (max_float < pow2 1024)%Q.
Proof. vm_compute. reflexivity. Qed.

(** A nonnegative result up to the largest float is rounded to a float. *)
Lemma round64_nonneg (x : Q) :
  (0 <= x)%Q -> (x <= max_float)%Q ->
  round64 x = Finite (nearest64 x) /\
  (0 <= nearest64 x)%Q /\ (nearest64 x <= max_float)%Q.
Proof.
  intros Hx Hm.
  pose proof (nearest64_nonneg x Hx) as N.
  assert (U : (nearest64 x <= max_float)%Q).
  { apply (nearest64_le_grid x max_float (2 ^ 53 - 1) 971);
      [reflexivity|reflexivity|discriminate|exact Hx|exact Hm]. }
  split; [|split; assumption].
  apply round64_finite. rewrite Qabs_pos by exact N.
  pose proof max_float_finite. lra.
Qed.

(** From [2^1024] on the result is an infinity. *)
Lemma round64_overflow (x : Q) :
  (pow2 1024 <= x)%Q -> round64 x = Infinity false.
Proof.
  intros L. pose proof (pow2_pos 1024) as P.
  assert (G : (pow2 1024 <= nearest64 x)%Q).
  { apply (nearest64_ge_grid x (pow2 1024) 1 1024);
      [change (inject_Z 1) with 1%Q; ring|reflexivity|discriminate|lra|exact L]. }
  unfold round64. cbv zeta.
  assert (C : Qle_bool (pow2 1024) (Qabs (nearest64 x)) = true).
  { apply Qle_bool_iff. rewrite Qabs_pos by lra. exact G. }
  rewrite C.
  assert (C0 : Qle_bool 0 x = true) by (apply Qle_bool_iff; lra).
  now rewrite C0.
Qed.

(** ** Floats between 1 and 2 *)

(** A float in [1, 2) is a multiple of [2^-52]. *)
Lemma binary64_unit_binade (f : Q) :
  (nearest64 f == f)%Q -> (1 <= f)%Q -> (f < 2)%Q ->
  exists m : Z, (f == inject_Z m * pow2 (-52))%Q.
Proof.
  intros R L U.
  rewrite nearest64_eq in R.
  rewrite (exponent64_pos f 0) in R by (vm_compute; lra || exact L || exact U).
  change (Z.max (0 - 52) (-1074)) with (-52) in R.
  eexists. symmetry. exact R.
Qed.

(** The floats above 3/2 start at [3/2 + 2^-52]. *)
Lemma binary64_above_3_2 (f : Q) :
  (nearest64 f == f)%Q -> (3 # 2 < f)%Q -> ((3 # 2) + pow2 (-52) <= f)%Q.
Proof.
  intros R L.
  assert (P : (pow2 (-52) == 1 # 4503599627370496)%Q) by reflexivity.
  destruct (Qlt_le_dec f 2) as [U|G]; [|rewrite P; lra].
  destruct (binary64_unit_binade f R) as [m E]; [lra|exact U|].
  rewrite P in E.
  assert (Hm : 6755399441055744 < m).
  { rewrite Zlt_Qlt.
    change (inject_Z 6755399441055744) with (6755399441055744 # 1)%Q. lra. }
  assert (Hm' : (inject_Z (6755399441055744 + 1) <= inject_Z m)%Q)
    by (rewrite <- Zle_Qle; lia).
  rewrite inject_Z_plus in Hm'. rewrite P.
  change (inject_Z 6755399441055744) with (6755399441055744 # 1)%Q in Hm'.
  change (inject_Z 1) with 1%Q in Hm'. lra.
Qed.

(** A nonnegative result is rounded to a nonnegative float or to the
    positive infinity. *)
Lemma round64_cases (x : Q) :
  (0 <= x)%Q ->
  (round64 x = Infinity false /\ (pow2 1024 <= nearest64 x)%Q) \/
  (round64 x = Finite (nearest64 x) /\ (nearest64 x < pow2 1024)%Q).
Proof.
  intros Hx. pose proof (nearest64_nonneg x Hx) as N.
  unfold round64. cbv zeta.
  assert (C0 : Qle_bool 0 x = true) by (apply Qle_bool_iff; exact Hx).
  destruct (Qle_bool (pow2 1024) (Qabs (nearest64 x))) eqn:C.
  - left. rewrite C0. split; [reflexivity|].
    apply Qle_bool_iff in C. rewrite Qabs_pos in C by exact N. exact C.
  - right. split; [reflexivity|].
    apply Qnot_le_lt. intros L.
    assert (C' : Qle_bool (pow2 1024) (Qabs (nearest64 x)) = true)
      by (apply Qle_bool_iff; rewrite Qabs_pos by exact N; exact L).
    congruence.
Qed.

Lemma format_0f_nonneg (v : Q) :
  (0 <= v)%Q -> format_0f v = str_of_Z (round_half_even v).
Proof.
  intros L. unfold format_0f.
  assert (C : Qle_bool 0 v = true) by (apply Qle_bool_iff; exact L).
  now rewrite C.
Qed.

(** ** Properties of the acquisition workers *)

Module ThreadsSpec.

Import Threads.

Lemma fetched_app (a b : list event) : fetched (a ++ b) = fetched a ++ fetched b.
Proof. apply flat_map_app. Qed.

Lemma unlocked_app (a b : list event) :
  unlocked (a ++ b) = unlocked a ++ unlocked b.
Proof. apply flat_map_app. Qed.

Lemma printed_app (a b : list event) : printed (a ++ b) = printed a ++ printed b.
Proof. apply flat_map_app. Qed.

Lemma cube_ops_app (a b : list event) :
  cube_ops (a ++ b) = cube_ops a ++ cube_ops b.
Proof. apply flat_map_app. Qed.

(** The loop test, case by case. *)
Lemma run_nil (p : callback) (self : Thread) : run p [] self = (Ret tt, self).
Proof. simpl. destruct (running self); reflexivity. Qed.

Lemma run_stopped (p : callback) (ticks : list tick) (self : Thread) :
  running self = false -> run p ticks self = (Ret tt, self).
Proof. intros E. destruct ticks; simpl; rewrite E; reflexivity. Qed.

Lemma run_wait (p : callback) r b t rest (self : Thread) :
  running self = true ->
  run p (Wait r b t :: rest) self
  = bind (run_body p r b t) (fun _ => run p rest) self.
Proof. intros E. simpl. rewrite E. reflexivity. Qed.

Lemma run_external (p : callback) rest (self : Thread) :
  running self = true ->
  run p (ExternalStop :: rest) self = bind stop (fun _ => run p rest) self.
Proof. intros E. simpl. rewrite E. reflexivity. Qed.

(** *** Buffers fetched and buffers unlocked *)

Lemma run_body_balanced (p : callback) r b t (self : Thread) :
  frame_neutral p ->
  unlocked (world self) = fetched (world self) ->
  balanced (run_body p r b t self).
Proof.
  intros N Hb. unfold run_body, bind, emit, modify. simpl.
  destruct (r =? IS_SUCCESS) eqn:E.
  - unfold _process, bind. simpl.
    match goal with
    | |- context [p ?i ?s] =>
        destruct (N i s) as [Hf Hu]; destruct (p i s) as [[[]|e] s1]
    end; simpl in *.
    + rewrite unlocked_app, fetched_app, Hf, Hu. simpl.
      rewrite unlocked_app, fetched_app. simpl.
      rewrite E. simpl. rewrite Hb, ?app_nil_r. reflexivity.
    + exists b. rewrite Hf, Hu, unlocked_app, fetched_app. simpl.
      rewrite E, Hb. simpl. rewrite ?app_nil_r. reflexivity.
  - simpl. rewrite !unlocked_app, !fetched_app. simpl. rewrite E. simpl.
    rewrite !app_nil_r. exact Hb.
Qed.

Lemma process_neutral : frame_neutral process.
Proof. intros i s. split; reflexivity. Qed.

Lemma SaveThread_process_neutral : frame_neutral SaveThread_process.
Proof.
  intros i s. unfold SaveThread_process, imwrite, bind, getattr, gets.
  destruct (path s) as [p|]; simpl; [|split; reflexivity].
  destruct (iio_raises s p); simpl; [split; reflexivity|].
  rewrite !fetched_app, !unlocked_app. simpl. rewrite !app_nil_r.
  split; reflexivity.
Qed.

(** Quiet computations compose. *)
Lemma quiet_bind {A B} (m : Py Thread A) (k : A -> Py Thread B) :
  quiet m -> (forall a, quiet (k a)) -> quiet (bind m k).
Proof.
  intros Hm Hk s. unfold bind. destruct (Hm s) as [Hf Hu].
  destruct (m s) as [[a|e] s1]; cbn [snd] in *.
  - destruct (Hk a s1) as [Hf' Hu']. now rewrite Hf', Hu'.
  - now split.
Qed.

Lemma quiet_ret {A} (a : A) : quiet (ret a).
Proof. intros s. now split. Qed.

Lemma quiet_raise {A} (e : exn) : quiet (@raise Thread A e).
Proof. intros s. now split. Qed.

Lemma quiet_gets {A} (f : Thread -> A) : quiet (gets f).
Proof. intros s. now split. Qed.

Lemma quiet_getattr {A} (name : string) (f : Thread -> option A) :
  quiet (getattr name f).
Proof. intros s. unfold getattr. destruct (f s); now split. Qed.

Lemma quiet_modify (f : Thread -> Thread) :
  (forall s, world (f s) = world s) -> quiet (modify f).
Proof. intros Hw s. cbn. now rewrite Hw. Qed.

Lemma quiet_emit (e : event) :
  fetched_of e = [] -> unlocked_of e = [] -> quiet (emit e).
Proof.
  intros Hf Hu s. cbn. rewrite fetched_app, unlocked_app. cbn.
  now rewrite Hf, Hu, !app_nil_r.
Qed.

Ltac quiet_auto :=
  repeat first
    [ apply quiet_bind; [|intros ?]
    | apply quiet_ret
    | apply quiet_raise
    | apply quiet_gets
    | apply quiet_getattr
    | apply quiet_emit; reflexivity
    | apply quiet_modify; reflexivity
    | match goal with
      | |- quiet (if ?b then _ else _) => destruct b
      | |- quiet (match ?x with _ => _ end) => destruct x
      end ].

Lemma stop_quiet : quiet stop.
Proof. unfold stop. quiet_auto. Qed.

Lemma stop_check_quiet : quiet stop_check.
Proof. unfold stop_check, stop. quiet_auto. Qed.

Lemma process_envi_neutral : frame_neutral process_envi.
Proof.
  intros i. change (quiet (process_envi i)).
  unfold process_envi, time_str, truthy. quiet_auto; apply stop_check_quiet.
Qed.

Lemma process_iio_neutral : frame_neutral process_iio.
Proof.
  intros i. change (quiet (process_iio i)).
  unfold process_iio, call_str, imwrite.
  quiet_auto; apply stop_check_quiet.
Qed.

(** C1, as amended: in every run of the worker loop whose callback neither
    fetches nor unlocks by itself, each successful fetch whose processing
    returns is followed by exactly one unlock of the delivered buffer, so
    when the run ends without an exception the buffers unlocked are the
    buffers fetched, one for one and in order (N fetches, N unlocks); when
    the callback raises, the unlock is skipped and the exception ends the
    run with the buffer of the last fetch still locked (N fetches, N-1
    unlocks). *)
Theorem run_balanced (p : callback) (ticks : list tick) (self : Thread) :
  frame_neutral p ->
  unlocked (world self) = fetched (world self) ->
  balanced (run p ticks self) /\
  (forall u s', run p ticks self = (Ret u, s') ->
     List.length (unlocked (world s')) = List.length (fetched (world s'))) /\
  (forall e s', run p ticks self = (Exc e, s') ->
     S (List.length (unlocked (world s'))) = List.length (fetched (world s'))).
Proof.
  intros N Hb.
  assert (B : balanced (run p ticks self)).
  { revert self Hb. induction ticks as [|t rest IH]; intros self Hb.
    - rewrite run_nil. exact Hb.
    - destruct (running self) eqn:R.
      2:{ rewrite run_stopped by exact R. exact Hb. }
      destruct t as [r b t|].
      + rewrite run_wait by exact R. unfold bind.
        pose proof (run_body_balanced p r b t self N Hb) as Hs.
        destruct (run_body p r b t self) as [[[]|e] s1]; simpl in Hs.
        * apply IH. exact Hs.
        * exact Hs.
      + rewrite run_external by exact R.
        unfold bind, stop, bind, emit, modify. simpl.
        apply IH. simpl. rewrite unlocked_app, fetched_app. simpl.
        rewrite !app_nil_r. exact Hb. }
  split; [exact B|]. split.
  - intros u s' E. rewrite E in B. simpl in B. now rewrite B.
  - intros e s' E. rewrite E in B. simpl in B. destruct B as [buf B].
    rewrite B, length_app. simpl. lia.
Qed.

(** Witness of [run_balanced]: a [SaveThread] that gets a missed frame and
    then a frame. *)
Lemma run_balanced_witness :
  balanced (run SaveThread_process [Wait 1 buf1 5; Wait 0 buf1 6]
              (with_path "/tmp/a.png" worker0)).
Proof.
  apply (run_balanced SaveThread_process [Wait 1 buf1 5; Wait 0 buf1 6]
           (with_path "/tmp/a.png" worker0)).
  - exact SaveThread_process_neutral.
  - reflexivity.
Defined.

(** C1 as stated fails: a worker whose callback raises on its first frame
    has fetched one buffer and unlocked none; so would a worker whose
    callback were the function that [set_process] defines for [.png]
    files, which raises on the attribute [path]. *)
Lemma raising_sink_leaks_buffer :
  let r := run (fun _ => raise OSError) [Wait IS_SUCCESS buf1 5] worker0 in
  let r' := run process_iio [Wait IS_SUCCESS buf1 5] saver0 in
  (fst r = Exc OSError /\
   fetched (world (snd r)) = [buf1] /\
   unlocked (world (snd r)) = []) /\
  (fst r' = Exc (AttributeError "path") /\
   fetched (world (snd r')) = [buf1] /\
   unlocked (world (snd r')) = []).
Proof. repeat split. Qed.


(** *** Missed frames *)

Lemma missed_step (p : callback) r b t (self : Thread) :
  r <> IS_SUCCESS ->
  run_body p r b t self
  = (Ret tt,
     with_d (d self + 1)
       (with_world (fun w => w ++ [WaitForNextImage r b;
                                    Print (missed_warning (d self))]) self)).
Proof.
  intros E. apply Z.eqb_neq in E.
  unfold run_body, bind, emit, modify, gets, incr_d, bind. simpl.
  rewrite E. simpl. unfold with_d, with_world. simpl.
  rewrite <- app_assoc. reflexivity.
Qed.

(** C2, as amended: when the fetch times out the worker logs a warning
    tagged with the current value of [d] and then increments [d]; nothing
    else changes.  After n consecutive timeouts [d] has grown by n, the
    warnings printed are tagged d, d+1, ..., d+n-1, [capt_time] is what it
    was, the worker is still running and has unlocked nothing. *)
Theorem run_timeouts (p : callback) (ticks : list tick) (self : Thread) :
  Forall is_timeout ticks ->
  running self = true ->
  exists s',
    run p ticks self = (Ret tt, s') /\
    d s' = d self + Z.of_nat (List.length ticks) /\
    capt_time s' = capt_time self /\
    running s' = true /\
    printed (world s')
    = printed (world self)
      ++ List.map (fun i => missed_warning (d self + Z.of_nat i))
           (seq 0 (List.length ticks)) /\
    unlocked (world s') = unlocked (world self).
Proof.
  intros Ht. revert self.
  induction Ht as [|t rest Hx Hrest IH]; intros self R.
  - exists self. rewrite run_nil. simpl.
    rewrite Z.add_0_r, app_nil_r. repeat split; auto.
  - destruct t as [r b t|]; [|contradiction]. simpl in Hx.
    rewrite run_wait by exact R. unfold bind.
    rewrite (missed_step p r b t self Hx).
    match goal with |- context [run p rest ?s] => destruct (IH s R)
      as (s' & E & Hd & Hc & Hr & Hp & Hu) end.
    exists s'. rewrite E. simpl in Hd, Hc, Hp, Hu.
    split; [reflexivity|]. split.
    { rewrite Hd. simpl List.length. lia. }
    split; [exact Hc|]. split; [exact Hr|]. split.
    + rewrite Hp, printed_app. simpl. rewrite <- app_assoc. simpl.
      rewrite Z.add_0_r. do 2 f_equal.
      rewrite <- seq_shift, map_map. apply map_ext. intros i.
      f_equal. lia.
    + rewrite Hu, unlocked_app. simpl. now rewrite app_nil_r.
Qed.

(** Witness of [run_timeouts]: three fetches in a row that time out. *)
Lemma run_timeouts_witness :
  exists s',
    run process [Wait 1 buf1 5; Wait 1 buf1 6; Wait 1 buf1 7] worker0
    = (Ret tt, s') /\
    d s' = 3 /\ (capt_time s' = (-1)%Q) /\ running s' = true /\
    printed (world s')
    = ["Warning: Missed 0th frame !"; "Warning: Missed 1th frame !";
       "Warning: Missed 2th frame !"]%string /\
    unlocked (world s') = [].
Proof.
  apply (run_timeouts process [Wait 1 buf1 5; Wait 1 buf1 6; Wait 1 buf1 7]
           worker0).
  - repeat constructor; discriminate.
  - reflexivity.
Defined.

(** C2 as stated fails: after three consecutive timeouts of a fresh worker
    [d] is 3, not the 0 it started from. *)
Lemma three_timeouts_move_d :
  let s' := snd (run process [Wait 1 buf1 5; Wait 1 buf1 6; Wait 1 buf1 7]
                   worker0) in
  d worker0 = 0 /\ d s' = 3 /\ d s' <> d worker0 /\
  (capt_time s' = (-1)%Q).
Proof. repeat split. discriminate. Qed.


Lemma process_iio_raises (image_data : ImageData) (self : Thread) :
  exists e, process_iio image_data self = (Exc e, self).
Proof.
  unfold process_iio, bind, getattr, call_str, raise.
  destruct (path self); eexists; reflexivity.
Qed.

(** *** File names *)

Lemma time_str_cases (self : Thread) :
  (0 <= capt_time self)%Q ->
  (time_str self = (Ret "inf", self) /\
   (pow2 1024 <= nearest64 (capt_time self * 1000))%Q) \/
  (time_str self
   = (Ret (str_of_Z (round_half_even (nearest64 (capt_time self * 1000)))),
      self) /\
   round64 (capt_time self * 1000)
   = Finite (nearest64 (capt_time self * 1000)) /\
   (nearest64 (capt_time self * 1000) < pow2 1024)%Q).
Proof.
  intros Hpos.
  assert (Hx : (0 <= capt_time self * 1000)%Q)
    by (apply Qmult_le_0_compat; [exact Hpos|discriminate]).
  unfold time_str, bind, gets, ret. cbn [fst snd].
  destruct (round64_cases _ Hx) as [[E L]|[E L]]; rewrite E.
  - left. split; [reflexivity|exact L].
  - right. cbn [format_0f_binary64].
    rewrite format_0f_nonneg by (apply nearest64_nonneg; exact Hx).
    repeat split. exact L.
Qed.

Lemma time_str_finite (self : Thread) :
  (0 <= capt_time self)%Q -> (capt_time self * 1000 <= max_float)%Q ->
  time_str self
  = (Ret (str_of_Z (round_half_even (nearest64 (capt_time self * 1000)))),
     self) /\
  round64 (capt_time self * 1000)
  = Finite (nearest64 (capt_time self * 1000)).
Proof.
  intros Hpos Hmax.
  assert (Hx : (0 <= capt_time self * 1000)%Q)
    by (apply Qmult_le_0_compat; [exact Hpos|discriminate]).
  destruct (round64_nonneg _ Hx Hmax) as (E & N & U).
  pose proof max_float_finite as F.
  destruct (time_str_cases self Hpos) as [[_ L]|[Et [Er _]]]; [lra|].
  now split.
Qed.

(** C7, as amended: the path that [set_path] computes and stores is folder
    + base_name + n + extension, where n is the integer nearest, a tie
    going to the even neighbour, to the float that the product of the
    capture time by 1000 is (so n is not the floor in general); that float
    is the binary64 nearest to the capture time in milliseconds, half a
    unit in its last place away at most.  This for a capture time from 0
    on whose product does not overflow. *)
Theorem set_path_rounds_to_nearest (self : Thread) :
  (0 <= capt_time self)%Q ->
  (capt_time self * 1000 <= max_float)%Q ->
  exists (ms : Q) (n : Z),
    round64 (capt_time self * 1000) = Finite ms /\
    fst (set_path self)
    = Ret (folder self ++ base_name self ++ str_of_Z n ++ file_type self)%string /\
    path (snd (set_path self))
    = Some (folder self ++ base_name self ++ str_of_Z n ++ file_type self)%string /\
    (Qabs (ms - inject_Z n) <= 1 # 2)%Q /\
    ((Qabs (ms - inject_Z n) == 1 # 2)%Q -> Z.even n = true) /\
    (Qabs (ms - capt_time self * 1000)
     <= pow2 (-53) * (capt_time self * 1000) + pow2 (-1075))%Q.
Proof.
  intros Hpos Hmax.
  destruct (time_str_finite self Hpos Hmax) as [Et Er].
  exists (nearest64 (capt_time self * 1000)),
         (round_half_even (nearest64 (capt_time self * 1000))).
  split; [exact Er|].
  split; [|split].
  - unfold set_path, bind, gets, ret, modify, getattr. cbn [fst snd].
    rewrite Et. reflexivity.
  - unfold set_path, bind, gets, ret, modify, getattr. cbn [fst snd].
    rewrite Et. reflexivity.
  - split; [apply round_half_even_nearest|].
    split; [apply round_half_even_nearest|].
    pose proof (nearest64_error (capt_time self * 1000)) as E.
    rewrite (Qabs_pos (capt_time self * 1000)) in E
      by (apply Qmult_le_0_compat; [exact Hpos|discriminate]).
    exact E.
Qed.

(** Witness of [set_path_rounds_to_nearest]: a frame captured 1/1024 s
    after second 1700000000 (a time that a binary64 holds exactly, as it
    does its product by 1000). *)
Lemma set_path_rounds_witness :
  exists (ms : Q) (n : Z),
    round64 ((1700000000 + (1 # 1024)) * 1000) = Finite ms /\
    fst (set_path (with_capt_time (1700000000 + (1 # 1024)) saver0))
    = Ret ("/data/" ++ "img_" ++ str_of_Z n ++ ".png")%string /\
    path (snd (set_path (with_capt_time (1700000000 + (1 # 1024)) saver0)))
    = Some ("/data/" ++ "img_" ++ str_of_Z n ++ ".png")%string /\
    (Qabs (ms - inject_Z n) <= 1 # 2)%Q /\
    ((Qabs (ms - inject_Z n) == 1 # 2)%Q -> Z.even n = true) /\
    (Qabs (ms - (1700000000 + (1 # 1024)) * 1000)
     <= pow2 (-53) * ((1700000000 + (1 # 1024)) * 1000) + pow2 (-1075))%Q.
Proof.
  apply (set_path_rounds_to_nearest
           (with_capt_time (1700000000 + (1 # 1024)) saver0)).
  - discriminate.
  - vm_compute. discriminate.
Defined.

(** C7 as stated fails: for a capture time of 1700000000000 ms and 125/128
    the file name carries 1700000000001, while the floor is
    1700000000000. *)
Lemma set_path_is_not_floor :
  let self := with_capt_time (1700000000 + (1 # 1024)) saver0 in
  fst (set_path self) = Ret "/data/img_1700000000001.png" /\
  Qfloor (capt_time self * 1000) = 1700000000000 /\
  fst (set_path self)
  <> Ret (folder self ++ base_name self
          ++ str_of_Z (Qfloor (capt_time self * 1000))
          ++ file_type self)%string.
Proof.
  cbv zeta. split; [vm_compute; reflexivity|].
  split; [vm_compute; reflexivity|]. vm_compute. discriminate.
Qed.

(** The float product against binary64 itself: a time whose product by
    1000 is held exactly, and one whose product is rounded down to a tie,
    so that the name carries ...608 for 1700000997608.5000038 ms. *)
Lemma time_str_binary64_example :
  option_map Qred (float_value 1700000000.0009765625)
  = Some (Qred (1700000000 + (1 # 1024))) /\
  time_str_binary64 1700000000.0009765625 = Some "1700000000001" /\
  time_str_binary64 0x1.954fd3966f1aap+30 = Some "1700000997608" /\
  option_map (fun t => fst (time_str (with_capt_time t saver0)))
    (float_value 0x1.954fd3966f1aap+30)
  = Some (Ret "1700000997608") /\
  option_map (fun t => Qfloor (t * 1000 + (1 # 2)))
    (float_value 0x1.954fd3966f1aap+30)
  = Some 1700000997609.
Proof. repeat split; vm_compute; reflexivity. Qed.

Lemma last_char_snoc (s : string) (c : ascii) :
  last_char (s ++ String c "") = Some c.
Proof.
  induction s as [|a s IH]; [reflexivity|].
  cbn [String.append last_char]. rewrite IH.
  destruct (s ++ String c "")%string eqn:E; [|reflexivity].
  destruct s; discriminate.
Qed.

Lemma init_folder
  (c : Z) (fa : string) (ch : ascii) (base : string) (m : Z) (ft : string)
  (cp : bool) (a : list Z) :
  last_char fa = Some ch ->
  folder (snd (MultiFrameThread__init__ (Ret c) fa base m ft cp a blank))
  = (if Ascii.eqb ch "/" then fa else fa ++ "/")%string /\
  (ft <> ".envi"%string ->
   fst (MultiFrameThread__init__ (Ret c) fa base m ft cp a blank) = Ret tt).
Proof.
  intros L.
  unfold MultiFrameThread__init__, GatherThread__init__, set_process,
    prep_envi_capture, bind, gets, modify, getattr, emit, ret, raise.
  cbn [fst snd]. rewrite L.
  destruct (Ascii.eqb ch "/"); cbn;
    (destruct (String.eqb ft ".envi") eqn:Eft; cbn;
     [ apply String.eqb_eq in Eft; split; [reflexivity|congruence]
     | split; [destruct a; reflexivity|intros _; destruct a; reflexivity] ]).
Qed.

(** For the file type [.envi] the constructor prepares the cube before it
    has assigned [aoi] and [max_frames]. *)
Lemma init_envi_raises
  (c : Z) (p : string) (ch : ascii) (base : string) (m : Z) (cp : bool)
  (a : list Z) :
  fst (MultiFrameThread__init__ (Ret c) (p ++ String ch "") base m ".envi"
         cp a blank)
  = Exc (AttributeError "aoi").
Proof.
  unfold MultiFrameThread__init__, GatherThread__init__, set_process,
    prep_envi_capture, bind, gets, modify, getattr, emit, ret, raise.
  cbn [fst snd]. rewrite last_char_snoc.
  destruct (Ascii.eqb ch "/"); reflexivity.
Qed.

(** C10: the constructor of the multi-frame worker stores the folder with
    a [/] appended when its last character is not [/], and unchanged when
    it is, so the stored folder ends in [/] and every path that [set_path]
    builds has it between folder and file name; it returns normally for
    every file type but [.envi]; on the empty folder it raises
    [IndexError]. *)
Theorem init_normalizes_folder
  (c : Z) (p : string) (ch : ascii) (base : string) (m : Z) (ft : string)
  (cp : bool) (a : list Z) :
  let folder_arg := (p ++ String ch "")%string in
  let r := MultiFrameThread__init__ (Ret c) folder_arg base m ft cp a blank in
  folder (snd r)
  = (if Ascii.eqb ch "/" then folder_arg else folder_arg ++ "/")%string /\
  last_char (folder (snd r)) = Some "/"%char /\
  (ft <> ".envi"%string -> fst r = Ret tt) /\
  (forall self, folder self = folder (snd r) ->
     exists name,
       fst (set_path self)
       = Ret (folder (snd r) ++ name)%string /\
       name = (base_name self
               ++ format_0f_binary64 (round64 (capt_time self * 1000))
               ++ file_type self)%string) /\
  fst (MultiFrameThread__init__ (Ret c) "" base m ft cp a blank)
  = Exc IndexError.
Proof.
  intros folder_arg r.
  destruct (init_folder c folder_arg ch base m ft cp a
              (last_char_snoc p ch)) as [Ef Er].
  fold r in Ef, Er.
  split; [exact Ef|]. split.
  { rewrite Ef. destruct (Ascii.eqb ch "/") eqn:Ec.
    - apply Ascii.eqb_eq in Ec. subst ch. apply last_char_snoc.
    - apply last_char_snoc. }
  split; [exact Er|]. split.
  { intros self Hs. eexists. split; [|reflexivity].
    unfold set_path, time_str, bind, gets, modify, getattr, ret.
    cbn. rewrite Hs. reflexivity. }
  unfold MultiFrameThread__init__, GatherThread__init__, bind. reflexivity.
Qed.

(** *** Observations that a computation preserves *)

Lemma preserves_bind {A B X} (obs : Thread -> X)
  (m : Py Thread A) (k : A -> Py Thread B) :
  preserves obs m -> (forall a, preserves obs (k a)) ->
  preserves obs (bind m k).
Proof.
  intros Hm Hk s. unfold bind. specialize (Hm s).
  destruct (m s) as [[a|e] s1]; cbn [snd] in *; [|exact Hm].
  now rewrite (Hk a s1).
Qed.

Lemma preserves_ret {A X} (obs : Thread -> X) (a : A) :
  preserves obs (ret a).
Proof. intros s. reflexivity. Qed.

Lemma preserves_raise {A X} (obs : Thread -> X) (e : exn) :
  preserves obs (@raise Thread A e).
Proof. intros s. reflexivity. Qed.

Lemma preserves_gets {A X} (obs : Thread -> X) (f : Thread -> A) :
  preserves obs (gets f).
Proof. intros s. reflexivity. Qed.

Lemma preserves_getattr {A X} (obs : Thread -> X) (name : string)
  (f : Thread -> option A) :
  preserves obs (getattr name f).
Proof. intros s. unfold getattr. now destruct (f s). Qed.

Lemma preserves_modify {X} (obs : Thread -> X) (f : Thread -> Thread) :
  (forall s, obs (f s) = obs s) -> preserves obs (modify f).
Proof. intros Hf s. apply Hf. Qed.

Lemma waited_app (a b : list event) : waited (a ++ b) = (waited a + waited b)%nat.
Proof. unfold waited. now rewrite flat_map_app, length_app. Qed.

Lemma imwrites_app (a b : list event) :
  imwrites (a ++ b) = imwrites a ++ imwrites b.
Proof. apply flat_map_app. Qed.

(** Every step of a computation is shown to preserve the observation; an
    event appended to the world is looked at through [side]. *)
Ltac preserves_auto side :=
  repeat first
    [ apply preserves_bind; [|intros ?]
    | apply preserves_ret
    | apply preserves_raise
    | apply preserves_gets
    | apply preserves_getattr
    | apply preserves_modify; intros ?; side
    | match goal with
      | |- preserves _ (if ?b then _ else _) => destruct b
      | |- preserves _ (match ?x with _ => _ end) => destruct x
      end ].

Ltac counter_side :=
  cbn; unfold waited; rewrite ?flat_map_app, ?length_app; cbn;
  rewrite ?Nat.add_0_r; reflexivity.

Lemma stop_check_counter :
  preserves (fun self => (d self, waited (world self))) stop_check.
Proof. unfold stop_check, stop, emit. preserves_auto counter_side. Qed.

Lemma process_counter_neutral : counter_neutral process.
Proof. intros i s. reflexivity. Qed.

Lemma SaveThread_process_counter_neutral : counter_neutral SaveThread_process.
Proof.
  intros i. unfold SaveThread_process, imwrite, stop, emit.
  preserves_auto counter_side.
Qed.

Lemma process_envi_counter_neutral : counter_neutral process_envi.
Proof.
  intros i. unfold process_envi, time_str, truthy, emit.
  preserves_auto counter_side; apply stop_check_counter.
Qed.

Lemma process_iio_counter_neutral : counter_neutral process_iio.
Proof.
  intros i. unfold process_iio, call_str, imwrite, emit.
  preserves_auto counter_side; apply stop_check_counter.
Qed.

(** *** The counter [d] *)

Lemma run_body_counter (p : callback) r b t (self : Thread) :
  counter_neutral p ->
  match run_body p r b t self with
  | (Ret _, s1) =>
      d s1 = d self + 1 /\ waited (world s1) = S (waited (world self))
  | (Exc _, s1) =>
      d s1 = d self /\ waited (world s1) = S (waited (world self))
  end.
Proof.
  intros N. destruct (r =? IS_SUCCESS) eqn:E.
  - unfold run_body, _process, incr_d, unlock, emit, bind, gets, modify.
    cbn [fst snd]. rewrite E. cbn [fst snd].
    match goal with
    | |- context [p ?i ?s0] =>
        pose proof (N i s0) as Hp; destruct (p i s0) as [[[]|e] s1]
    end; cbn [fst snd] in Hp; injection Hp as Hd Hw;
      cbn [d world with_d with_world with_capt_time] in *;
      rewrite waited_app in Hw; cbn in Hw;
      rewrite ?waited_app; cbn [waited flat_map wait_of app List.length];
      split; lia.
  - apply Z.eqb_neq in E. rewrite (missed_step p r b t self E).
    cbn [d world with_d with_world]. rewrite waited_app. cbn. split; lia.
Qed.

(** X1: in every run whose callback leaves [d] alone, [d] counts the
    fetches made, successful or missed: a run that ends without an
    exception has raised [d] by the number of fetches, and a run that a
    raising callback ends has raised it by one less (the frame in flight
    is not counted). *)
Theorem d_counts_fetches (p : callback) (ticks : list tick) (self : Thread) :
  counter_neutral p ->
  match run p ticks self with
  | (Ret _, s') =>
      d s' + Z.of_nat (waited (world self))
      = d self + Z.of_nat (waited (world s'))
  | (Exc _, s') =>
      d s' + Z.of_nat (waited (world self)) + 1
      = d self + Z.of_nat (waited (world s'))
  end.
Proof.
  intros N. revert self. induction ticks as [|t rest IH]; intros self.
  - rewrite run_nil. reflexivity.
  - destruct (running self) eqn:R.
    2:{ rewrite run_stopped by exact R. reflexivity. }
    destruct t as [r b t|].
    + rewrite run_wait by exact R. unfold bind.
      pose proof (run_body_counter p r b t self N) as Hs.
      destruct (run_body p r b t self) as [[[]|e] s1].
      * destruct Hs as [Hd Hw]. specialize (IH s1).
        destruct (run p rest s1) as [[[]|e] s2]; lia.
      * destruct Hs as [Hd Hw]. lia.
    + rewrite run_external by exact R.
      unfold bind, stop, bind, emit, modify. cbn [fst snd].
      match goal with |- context [run p rest ?s2] =>
        specialize (IH s2); destruct (run p rest s2) as [[[]|e] s3]
      end; cbn [d world with_running with_world] in IH;
        rewrite waited_app in IH; cbn in IH; lia.
Qed.

(** Witness of [d_counts_fetches]: a multi-frame worker that gets a
    frame, misses one and gets another. *)
Lemma d_counts_fetches_witness :
  d (snd (run MultiFrameThread_process
            [Wait IS_SUCCESS buf1 5; Wait 1 buf1 6; Wait IS_SUCCESS buf1 7]
            saver5)) = 3.
Proof.
  pose proof (d_counts_fetches MultiFrameThread_process
                [Wait IS_SUCCESS buf1 5; Wait 1 buf1 6; Wait IS_SUCCESS buf1 7]
                saver5 process_counter_neutral)
    as H.
  exact H.
Defined.

(** *** SaveThread *)

Lemma SaveThread_frame (p : string) b t (self : Thread) :
  path self = Some p ->
  match iio_raises self p with
  | None =>
      exists s',
        run_body SaveThread_process IS_SUCCESS b t self = (Ret tt, s') /\
        running s' = false /\
        imwrites (world s') = imwrites (world self) ++ [(p, b)] /\
        unlocked (world s') = unlocked (world self) ++ [b]
  | Some e =>
      exists s',
        run_body SaveThread_process IS_SUCCESS b t self = (Exc e, s') /\
        running s' = running self /\
        imwrites (world s') = imwrites (world self) /\
        unlocked (world s') = unlocked (world self) /\
        fetched (world s') = fetched (world self) ++ [b]
  end.
Proof.
  intros Hp.
  unfold run_body, _process, SaveThread_process, imwrite, stop, incr_d,
    unlock, emit, bind, getattr, gets, modify. cbn. rewrite Hp. cbn.
  destruct (iio_raises self p) as [e|]; cbn.
  - eexists. split; [reflexivity|]. cbn.
    rewrite !imwrites_app, !unlocked_app, !fetched_app. cbn.
    rewrite !app_nil_r. repeat split.
  - eexists. split; [reflexivity|]. cbn. split; [reflexivity|].
    rewrite !imwrites_app, !unlocked_app. cbn. rewrite !app_nil_r.
    split; reflexivity.
Qed.

(** X2: a [SaveThread] hands the first frame its schedule delivers to the
    writer, for its path.  When the writer takes the path, the frame is
    written, the worker stops and unlocks the frame, and nothing else is
    written whatever the schedule goes on with.  When the writer raises,
    the exception ends the run: nothing is written, the worker is not
    stopped and the frame stays locked.  When no frame arrives before a
    [stop()] from outside, nothing is written at all. *)
Theorem SaveThread_writes_one_file
  (p : string) (ticks : list tick) (self : Thread) :
  running self = true ->
  path self = Some p ->
  match first_frame ticks, iio_raises self p with
  | Some b, None =>
      exists s',
        run SaveThread_process ticks self = (Ret tt, s') /\
        running s' = false /\
        imwrites (world s') = imwrites (world self) ++ [(p, b)] /\
        unlocked (world s') = unlocked (world self) ++ [b]
  | Some b, Some e =>
      exists s',
        run SaveThread_process ticks self = (Exc e, s') /\
        running s' = true /\
        imwrites (world s') = imwrites (world self) /\
        unlocked (world s') = unlocked (world self) /\
        fetched (world s') = fetched (world self) ++ [b]
  | None, _ =>
      exists s',
        run SaveThread_process ticks self = (Ret tt, s') /\
        imwrites (world s') = imwrites (world self) /\
        unlocked (world s') = unlocked (world self)
  end.
Proof.
  revert self. induction ticks as [|t rest IH]; intros self R Hp.
  - cbn [first_frame]. exists self. rewrite run_nil. now repeat split.
  - destruct t as [r b t|].
    + rewrite run_wait by exact R. unfold bind. cbn [first_frame].
      destruct (r =? IS_SUCCESS) eqn:E.
      * apply Z.eqb_eq in E. subst r.
        pose proof (SaveThread_frame p b t self Hp) as F.
        destruct (iio_raises self p) as [e|].
        -- destruct F as (s1 & E1 & R1 & W1 & U1 & F1). rewrite E1.
           exists s1. rewrite R1, R. now repeat split.
        -- destruct F as (s1 & E1 & R1 & W1 & U1). rewrite E1.
           exists s1. split; [now apply run_stopped|]. now repeat split.
      * apply Z.eqb_neq in E.
        rewrite (missed_step SaveThread_process r b t self E).
        match goal with |- context [run _ rest ?s2] =>
          specialize (IH s2 R Hp)
        end.
        cbn [iio_raises world with_d with_world] in IH.
        rewrite !imwrites_app, !unlocked_app, !fetched_app in IH.
        cbn in IH. rewrite !app_nil_r in IH.
        replace (if r =? IS_SUCCESS then [b] else []) with (@nil ImageBuffer)
          in IH by (apply Z.eqb_neq in E; now rewrite E).
        rewrite !app_nil_r in IH. exact IH.
    + rewrite run_external by exact R.
      unfold bind, stop, bind, emit, modify. cbn [fst snd first_frame].
      eexists. split; [apply run_stopped; reflexivity|].
      cbn. rewrite imwrites_app, unlocked_app. cbn. now rewrite !app_nil_r.
Qed.

(** Witness of [SaveThread_writes_one_file]: a worker fresh from its
    constructor that misses a frame and is then offered two, with a path
    that the writer takes, and with one that it does not. *)
Lemma SaveThread_one_file_witness :
  (exists s',
     run SaveThread_process
       [Wait 1 buf1 5; Wait IS_SUCCESS buf1 6; Wait IS_SUCCESS buf1 7]
       (snd (SaveThread__init__ (Ret IS_SUCCESS) "/tmp/a.png" true blank))
     = (Ret tt, s') /\
     running s' = false /\
     imwrites (world s') = [("/tmp/a.png", buf1)] /\
     unlocked (world s') = [buf1]) /\
  (exists s',
     run SaveThread_process
       [Wait 1 buf1 5; Wait IS_SUCCESS buf1 6; Wait IS_SUCCESS buf1 7]
       (with_iio_raises (fun _ => Some OSError)
          (snd (SaveThread__init__ (Ret IS_SUCCESS) "/none/a.png" true
                  blank)))
     = (Exc OSError, s') /\
     running s' = true /\
     imwrites (world s') = [] /\
     unlocked (world s') = [] /\
     fetched (world s') = [buf1]).
Proof.
  split.
  - apply (SaveThread_writes_one_file "/tmp/a.png"
             [Wait 1 buf1 5; Wait IS_SUCCESS buf1 6; Wait IS_SUCCESS buf1 7]
             (snd (SaveThread__init__ (Ret IS_SUCCESS) "/tmp/a.png" true
                     blank)));
      reflexivity.
  - apply (SaveThread_writes_one_file "/none/a.png"
             [Wait 1 buf1 5; Wait IS_SUCCESS buf1 6; Wait IS_SUCCESS buf1 7]
             (with_iio_raises (fun _ => Some OSError)
                (snd (SaveThread__init__ (Ret IS_SUCCESS) "/none/a.png" true
                        blank))));
      reflexivity.
Defined.

(** *** The multi-frame worker *)

(** One turn of the loop with the callback of [GatherThread]: nothing is
    written, and the worker goes on. *)
Lemma run_body_process r b t (self : Thread) :
  exists s1,
    run_body process r b t self = (Ret tt, s1) /\
    running s1 = running self /\
    d s1 = d self + 1 /\
    imwrites (world s1) = imwrites (world self) /\
    cube_ops (world s1) = cube_ops (world self).
Proof.
  destruct (r =? IS_SUCCESS) eqn:E.
  - unfold run_body, _process, process, incr_d, unlock, emit, bind, gets,
      modify, ret. cbn [fst snd]. rewrite E. cbn [fst snd].
    eexists. split; [reflexivity|]. cbn.
    rewrite !imwrites_app, !cube_ops_app. cbn. rewrite !app_nil_r.
    repeat split.
  - apply Z.eqb_neq in E. rewrite (missed_step process r b t self E).
    eexists. split; [reflexivity|]. cbn.
    rewrite !imwrites_app, !cube_ops_app. cbn. rewrite !app_nil_r.
    repeat split.
Qed.

(** A run with that callback never writes a frame, in a file or in a
    cube. *)
Lemma run_process_writes_nothing (ticks : list tick) (self : Thread) :
  imwrites (world (snd (run process ticks self))) = imwrites (world self) /\
  cube_ops (world (snd (run process ticks self))) = cube_ops (world self).
Proof.
  revert self. induction ticks as [|t rest IH]; intros self.
  - rewrite run_nil. now split.
  - destruct (running self) eqn:R.
    2:{ rewrite run_stopped by exact R. now split. }
    destruct t as [r b t|].
    + rewrite run_wait by exact R. unfold bind.
      destruct (run_body_process r b t self) as (s1 & E & _ & _ & Hi & Hc).
      rewrite E. destruct (IH s1) as [Hi' Hc']. split; congruence.
    + rewrite run_external by exact R.
      unfold bind, stop, bind, emit, modify. cbn [fst snd].
      match goal with |- context [run process rest ?s2] =>
        destruct (IH s2) as [Hi Hc]
      end.
      rewrite Hi, Hc. cbn. rewrite imwrites_app, cube_ops_app. cbn.
      now rewrite !app_nil_r.
Qed.

(** With fetches only, it never stops either, and [d] counts them. *)
Lemma run_process_goes_on (ticks : list tick) (self : Thread) :
  running self = true -> Forall is_wait ticks ->
  exists s',
    run process ticks self = (Ret tt, s') /\
    running s' = true /\
    d s' = d self + Z.of_nat (List.length ticks).
Proof.
  revert self. induction ticks as [|t rest IH]; intros self R Hw.
  - exists self. rewrite run_nil. cbn. repeat split; [exact R|lia].
  - inversion Hw as [|t' rest' Ht Hrest]; subst.
    destruct t as [r b t|]; [|destruct Ht].
    rewrite run_wait by exact R. unfold bind.
    destruct (run_body_process r b t self) as (s1 & E & R1 & D1 & _).
    rewrite E. rewrite R in R1.
    destruct (IH s1 R1 Hrest) as (s' & E' & R' & D').
    exists s'. repeat split; [exact E'|exact R'|].
    rewrite D', D1. cbn [List.length]. lia.
Qed.

(** The worker that the constructor returns. *)
Lemma init_worker
  (c : Z) (fa base : string) (m : Z) (ft : string) (cp : bool) (a : list Z)
  (self : Thread) :
  MultiFrameThread__init__ (Ret c) fa base m ft cp a blank = (Ret tt, self) ->
  running self = true /\ d self = 0 /\ max_frames self = Some m /\
  world self = [CaptureVideo].
Proof.
  unfold MultiFrameThread__init__, GatherThread__init__, set_process,
    prep_envi_capture, bind, gets, modify, getattr, emit, ret, raise.
  cbn [fst snd].
  destruct (last_char fa) as [ch|]; [|discriminate].
  destruct (Ascii.eqb ch "/"); cbn;
    (destruct (String.eqb ft ".envi"); cbn; [discriminate|]);
    destruct a; intros [= <-]; repeat split.
Qed.

(** C3: the stop check does stop a bounded worker when [d + 2] exceeds
    [max_frames], but a [MultiFrameThread] never calls it: the functions
    that hold the call are local to [set_process], and the method in
    force is the empty one of [GatherThread].  So the worker that the
    constructor returns writes no frame and does not stop by itself; its
    counter passes [max_frames] and goes on with the fetches. *)
Theorem bounded_worker_never_stops
  (c : Z) (fa base : string) (m : Z) (ft : string) (cp : bool) (a : list Z)
  (ticks : list tick) (self : Thread) :
  MultiFrameThread__init__ (Ret c) fa base m ft cp a blank = (Ret tt, self) ->
  Forall is_wait ticks ->
  max_frames self = Some m /\
  (forall n, 0 < m ->
     running (snd (stop_check (with_d n self))) = negb (n + 2 >? m)) /\
  exists s',
    run MultiFrameThread_process ticks self = (Ret tt, s') /\
    running s' = true /\
    d s' = Z.of_nat (List.length ticks) /\
    imwrites (world s') = [] /\
    cube_ops (world s') = [].
Proof.
  intros Hi Hw. destruct (init_worker _ _ _ _ _ _ _ _ Hi) as (R & D & M & W).
  split; [exact M|]. split.
  - intros n Hm. unfold stop_check, stop, bind, getattr, gets, emit, modify,
      ret. cbn [fst snd max_frames with_d]. rewrite M. cbn [fst snd].
    replace (m >? 0) with true by (symmetry; apply Z.gtb_lt; lia).
    cbn [d with_d]. destruct (n + 2 >? m); cbn; [reflexivity|exact R].
  - unfold MultiFrameThread_process.
    destruct (run_process_goes_on ticks self R Hw) as (s' & E & R' & D').
    destruct (run_process_writes_nothing ticks self) as [Wi Wc].
    rewrite E in Wi, Wc. cbn [snd] in Wi, Wc. rewrite W in Wi, Wc.
    exists s'. repeat split; try assumption. lia.
Qed.

(** Witness of [bounded_worker_never_stops]: a worker for five [.png]
    frames that is delivered eight. *)
Lemma bounded_worker_eight_frames :
  exists s',
    run MultiFrameThread_process (repeat (Wait IS_SUCCESS buf1 7) 8) saver5
    = (Ret tt, s') /\
    running s' = true /\ d s' = 8 /\
    imwrites (world s') = [] /\ cube_ops (world s') = [].
Proof.
  assert (Hi : MultiFrameThread__init__ (Ret IS_SUCCESS) "/data" "img_" 5
                 ".png" true [] blank = (Ret tt, saver5)) by reflexivity.
  assert (Hw : Forall is_wait (repeat (Wait IS_SUCCESS buf1 7) 8))
    by (repeat constructor).
  exact (proj2 (proj2 (bounded_worker_never_stops _ _ _ _ _ _ _ _ _ Hi Hw))).
Defined.

(** C4: no cube is ever flushed.  For the file type [.envi] the
    constructor raises before it returns a worker: [set_process] prepares
    the cube before [aoi] and [max_frames] are assigned, and the first read
    of [aoi] raises with no file created and no map opened.  And whatever
    the state of a worker, its run with the method in force writes nothing
    to a map and flushes nothing, be it stopped from outside or not. *)
Theorem cube_worker_never_flushes
  (c : Z) (p : string) (ch : ascii) (base : string) (m : Z) (cp : bool)
  (a : list Z) :
  let r := MultiFrameThread__init__ (Ret c) (p ++ String ch "") base m
             ".envi" cp a blank in
  fst r = Exc (AttributeError "aoi") /\
  map (snd r) = None /\
  world (snd r) = [CaptureVideo] /\
  forall (ticks : list tick) (self : Thread),
    cube_ops (world (snd (run MultiFrameThread_process ticks self)))
    = cube_ops (world self).
Proof.
  cbv zeta. split; [|split; [|split]].
  - apply init_envi_raises.
  - unfold MultiFrameThread__init__, GatherThread__init__, set_process,
      prep_envi_capture, bind, gets, modify, getattr, emit, ret, raise.
    cbn [fst snd]. rewrite last_char_snoc.
    destruct (Ascii.eqb ch "/"); reflexivity.
  - unfold MultiFrameThread__init__, GatherThread__init__, set_process,
      prep_envi_capture, bind, gets, modify, getattr, emit, ret, raise.
    cbn [fst snd]. rewrite last_char_snoc.
    destruct (Ascii.eqb ch "/"); reflexivity.
  - intros ticks self. apply run_process_writes_nothing.
Qed.

(** The constructor for a cube of 250 frames, and a run of 250 frames and
    a [stop()] from outside on the worker for [.png] files. *)
Lemma cube_250_never_flushes :
  fst (MultiFrameThread__init__ (Ret IS_SUCCESS) "/data" "cube" 250 ".envi"
         true [0; 0; 640; 480] blank)
  = Exc (AttributeError "aoi") /\
  cube_ops
    (world (snd (run MultiFrameThread_process
                   (repeat (Wait IS_SUCCESS buf1 7) 250 ++ [ExternalStop])
                   saver5)))
  = [].
Proof.
  split.
  - exact (proj1 (cube_worker_never_flushes IS_SUCCESS "/dat" "a"%char
                    "cube" 250 true [0; 0; 640; 480])).
  - exact (proj2 (proj2 (proj2 (cube_worker_never_flushes IS_SUCCESS "/dat"
                                  "a"%char "cube" 250 true
                                  [0; 0; 640; 480])))
             (repeat (Wait IS_SUCCESS buf1 7) 250 ++ [ExternalStop])
             saver5).
Defined.

(** *** Timestamps in file names *)

Lemma str_of_Z_inj (a b : Z) : str_of_Z a = str_of_Z b -> a = b.
Proof.
  unfold str_of_Z. intros E.
  assert (N : forall z, NilZero.int_of_string
                          (NilZero.string_of_int (Z.to_int z))
                        = Some (Z.to_int z)).
  { intros z. apply NilZero.isi; destruct z; cbn; try discriminate;
      intros [= H]; now apply (DecimalPos.Unsigned.to_uint_nonnil p). }
  pose proof (N a) as Ha. rewrite E, N in Ha. injection Ha as Ha.
  rewrite <- (DecimalZ.of_to a), <- (DecimalZ.of_to b). now rewrite Ha.
Qed.

Lemma string_length_append (a b : string) :
  String.length (a ++ b) = (String.length a + String.length b)%nat.
Proof. induction a; cbn; congruence. Qed.

Lemma append_inv_tail (a b t : string) :
  (a ++ t = b ++ t)%string -> a = b.
Proof.
  revert b. induction a as [|c a IH]; intros [|c' b] E; cbn in E.
  - reflexivity.
  - exfalso.
    assert (L : String.length t = String.length (String c' (b ++ t)))
      by now rewrite <- E.
    cbn in L. rewrite string_length_append in L. lia.
  - exfalso.
    assert (L : String.length (String c (a ++ t)) = String.length t)
      by now rewrite E.
    cbn in L. rewrite string_length_append in L. lia.
  - injection E as -> E. f_equal. now apply IH.
Qed.

Lemma append_inv_head (h a b : string) :
  (h ++ a = h ++ b)%string -> a = b.
Proof. induction h; cbn; intros E; [exact E|injection E; auto]. Qed.



(** X6: two frames captured at least 1.001 ms apart, up to second [2^32]
    of the clock, get different file paths from [set_path], for the same
    folder, base name and extension: the later one carries a strictly
    greater number.  (At 1 ms and a little the two float products can
    round to the same number.) *)
Theorem paths_differ_beyond_1ms (s1 s2 : Thread) :
  (0 <= capt_time s1)%Q ->
  (capt_time s1 + (1001 # 1000000) <= capt_time s2)%Q ->
  (capt_time s2 <= inject_Z (2 ^ 32))%Q ->
  folder s1 = folder s2 ->
  base_name s1 = base_name s2 ->
  file_type s1 = file_type s2 ->
  (exists n1 n2 : Z,
     fst (time_str s1) = Ret (str_of_Z n1) /\
     fst (time_str s2) = Ret (str_of_Z n2) /\
     n1 < n2) /\
  fst (set_path s1) <> fst (set_path s2).
Proof.
  intros H1 H12 H2 Hf Hb Ht.
  change (inject_Z (2 ^ 32)) with (4294967296 # 1)%Q in H2.
  assert (Mf : (4294967296000 # 1 <= max_float)%Q)
    by (vm_compute; discriminate).
  destruct (time_str_finite s1) as [E1 _]; [lra|lra|].
  destruct (time_str_finite s2) as [E2 _]; [lra|lra|].
  pose proof (nearest64_error (capt_time s1 * 1000)) as R1.
  pose proof (nearest64_error (capt_time s2 * 1000)) as R2.
  rewrite (Qabs_pos (capt_time s1 * 1000)) in R1 by lra.
  rewrite (Qabs_pos (capt_time s2 * 1000)) in R2 by lra.
  apply Qabs_Qle_condition in R1. apply Qabs_Qle_condition in R2.
  assert (P53 : (pow2 (-53) == 1 # 9007199254740992)%Q) by reflexivity.
  assert (P1075 : (pow2 (-1075) <= 1 # 9007199254740992)%Q)
    by (vm_compute; discriminate).
  pose proof (pow2_pos (-1075)) as Pp.
  rewrite P53 in R1, R2.
  assert (Hlt : round_half_even (nearest64 (capt_time s1 * 1000))
                < round_half_even (nearest64 (capt_time s2 * 1000)))
    by (apply round_half_even_apart; lra).
  set (n1 := round_half_even (nearest64 (capt_time s1 * 1000))) in *.
  set (n2 := round_half_even (nearest64 (capt_time s2 * 1000))) in *.
  split.
  - exists n1, n2. rewrite E1, E2. now repeat split.
  - unfold set_path, bind, gets, modify, getattr, ret.
    rewrite E1, E2. cbn. rewrite Hf, Hb, Ht.
    intros [= E].
    apply append_inv_head, append_inv_head, append_inv_tail, str_of_Z_inj
      in E.
    lia.
Qed.

(** Witness of [paths_differ_beyond_1ms]: two frames 1.5 ms apart. *)
Lemma paths_differ_witness :
  (exists n1 n2 : Z,
     fst (time_str (with_capt_time (3 # 2000) saver0)) = Ret (str_of_Z n1) /\
     fst (time_str (with_capt_time (6 # 2000) saver0)) = Ret (str_of_Z n2) /\
     n1 < n2) /\
  fst (set_path (with_capt_time (3 # 2000) saver0))
  <> fst (set_path (with_capt_time (6 # 2000) saver0)).
Proof.
  apply (paths_differ_beyond_1ms (with_capt_time (3 # 2000) saver0)
           (with_capt_time (6 # 2000) saver0));
    reflexivity || (vm_compute; discriminate).
Defined.

(** Two capture times more than 1 ms apart whose float products round to
    the same number, in the embedding and in binary64 itself. *)
Lemma paths_collide_at_1ms :
  match float_value 0x1.954fc40001893p+30,
        float_value 0x1.954fc400028f6p+30 with
  | Some t1, Some t2 =>
      (t1 + (1 # 1000) < t2)%Q /\
      fst (time_str (with_capt_time t1 saver0)) = Ret "1700000000002" /\
      fst (time_str (with_capt_time t2 saver0)) = Ret "1700000000002"
  | _, _ => False
  end /\
  time_str_binary64 0x1.954fc40001893p+30 = Some "1700000000002" /\
  time_str_binary64 0x1.954fc400028f6p+30 = Some "1700000000002".
Proof. vm_compute. repeat split; reflexivity. Qed.

(** *** FrameThread *)

Lemma for_views_plain (vs : list View) (image_data : ImageData)
  (self : FrameThread) :
  Forall (fun v => handle_raises v = None) vs ->
  for_views vs image_data self
  = (Ret tt,
     {| views := views self;
        handled := handled self
                   ++ List.map (fun v => (view_id v, img_buffer image_data))
                        vs |}).
Proof.
  intros Hall. revert self. induction Hall as [|v vs Hv Hvs IH]; intros self.
  - cbn. rewrite app_nil_r. now destruct self.
  - cbn [for_views]. unfold bind, view_handle. rewrite Hv. cbn.
    rewrite IH. cbn. now rewrite <- app_assoc.
Qed.

Lemma for_views_raising (pre post : list View) (v : View) (e : exn)
  (image_data : ImageData) (self : FrameThread) :
  Forall (fun v => handle_raises v = None) pre ->
  handle_raises v = Some e ->
  for_views (pre ++ v :: post) image_data self
  = (Exc e,
     {| views := views self;
        handled := handled self
                   ++ List.map (fun v => (view_id v, img_buffer image_data))
                        pre |}).
Proof.
  intros Hall Hv. revert self. induction Hall as [|p pre Hp Hpre IH];
    intros self.
  - cbn. unfold bind, view_handle. rewrite Hv. cbn. rewrite app_nil_r.
    now destruct self.
  - cbn [for_views app]. unfold bind, view_handle at 1. rewrite Hp. cbn.
    rewrite IH. cbn. now rewrite <- app_assoc.
Qed.

(** X7: [FrameThread.process] hands the frame to the views in the order of
    the list, once each; a single view is first wrapped into a list, so the
    next frame finds a list; with no view ([None] or an empty list) nothing
    happens; and when a view raises, the views before it have got the
    frame, the views after it have not, and the exception leaves
    [process]. *)
Theorem FrameThread_dispatch
  (image_data : ImageData) (self : FrameThread) :
  (forall vs,
     views self = ViewList vs ->
     Forall (fun v => handle_raises v = None) vs ->
     FrameThread_process image_data self
     = (Ret tt,
        {| views := ViewList vs;
           handled := handled self
                      ++ List.map
                           (fun v => (view_id v, img_buffer image_data))
                           vs |})) /\
  (forall v,
     views self = OneView v ->
     handle_raises v = None ->
     FrameThread_process image_data self
     = (Ret tt,
        {| views := ViewList [v];
           handled := handled self
                      ++ [(view_id v, img_buffer image_data)] |})) /\
  (views self = NoViews ->
   FrameThread_process image_data self = (Ret tt, self)) /\
  (forall pre v post e,
     views self = ViewList (pre ++ v :: post) ->
     Forall (fun v => handle_raises v = None) pre ->
     handle_raises v = Some e ->
     FrameThread_process image_data self
     = (Exc e,
        {| views := ViewList (pre ++ v :: post);
           handled := handled self
                      ++ List.map
                           (fun v => (view_id v, img_buffer image_data))
                           pre |})).
Proof.
  split; [|split; [|split]].
  - intros vs Hv Hall. unfold FrameThread_process, bind, gets, ret.
    cbn [fst snd]. rewrite Hv. destruct vs as [|v vs].
    + cbn. rewrite app_nil_r. destruct self; cbn in *. now subst.
    + cbn [views_truth]. cbn [fst snd]. rewrite Hv.
      rewrite for_views_plain by exact Hall. now rewrite Hv.
  - intros v Hv Hn. unfold FrameThread_process, bind, gets, modify.
    cbn [fst snd]. rewrite Hv. cbn. unfold bind, view_handle.
    rewrite Hn. reflexivity.
  - intros Hv. unfold FrameThread_process, bind, gets, ret.
    cbn [fst snd]. rewrite Hv. reflexivity.
  - intros pre v post e Hv Hall He.
    unfold FrameThread_process, bind, gets, ret. cbn [fst snd]. rewrite Hv.
    replace (views_truth (ViewList (pre ++ v :: post))) with true
      by (now destruct pre).
    cbn [fst snd]. rewrite Hv.
    rewrite (for_views_raising pre post v e image_data self Hall He).
    now rewrite Hv.
Qed.


End ThreadsSpec.

(** ** Properties of the camera *)

Module CameraSpec.

Import Camera.

Section Driven.

Context {D : Type} `{Driver D}.

(** *** Closing the camera *)

Lemma exit_closed (s : State D) :
  h_cam (self s) = None -> exit s = (Ret tt, s).
Proof.
  intros E. unfold exit, bind, handle, gets, ret. cbn. rewrite E. reflexivity.
Qed.

Lemma exit_open (s : State D) (h : Z) :
  h_cam (self s) = Some h ->
  exit s
  = (Ret tt,
     {| self := if fst (is_ExitCamera (Some h) (drv s)) =? IS_SUCCESS
                then set_h_cam None (self s) else self s;
        drv := snd (is_ExitCamera (Some h) (drv s));
        stdout := stdout s |}).
Proof.
  intros E. unfold exit, bind, handle, gets, ret, call, modify. cbn.
  rewrite E. destruct (is_ExitCamera (Some h) (drv s)) as [r dr]. cbn.
  destruct (r =? IS_SUCCESS); reflexivity.
Qed.

(** C9, as amended: [exit] on a closed handle changes nothing and does not
    call the driver; on an open handle it calls the driver once and marks
    the handle closed exactly when the driver returns success, leaving the
    camera as it was otherwise; a second [exit] in a row changes nothing
    when the first one left the handle closed, and when the first one
    failed it is a new attempt on the unchanged camera, whose result is the
    driver's second answer. *)
Theorem exit_twice (s : State D) :
  (h_cam (self s) = None -> exit s = (Ret tt, s)) /\
  (forall h, h_cam (self s) = Some h ->
     drv (snd (exit s)) = snd (is_ExitCamera (Some h) (drv s)) /\
     stdout (snd (exit s)) = stdout s /\
     (fst (is_ExitCamera (Some h) (drv s)) = IS_SUCCESS ->
      self (snd (exit s)) = set_h_cam None (self s)) /\
     (fst (is_ExitCamera (Some h) (drv s)) <> IS_SUCCESS ->
      self (snd (exit s)) = self s)) /\
  (h_cam (self (snd (exit s))) = None ->
   bind exit (fun _ => exit) s = exit s) /\
  (forall h, h_cam (self (snd (exit s))) = Some h ->
     self (snd (exit s)) = self s /\
     (h_cam (self (snd (bind exit (fun _ => exit) s))) = None <->
      fst (is_ExitCamera (Some h) (drv (snd (exit s)))) = IS_SUCCESS)).
Proof.
  split; [apply exit_closed|]. split; [|split].
  - intros h E. rewrite (exit_open s h E). cbn.
    destruct (fst (is_ExitCamera (Some h) (drv s)) =? IS_SUCCESS) eqn:R.
    + apply Z.eqb_eq in R. repeat split; auto. intros; contradiction.
    + apply Z.eqb_neq in R. repeat split; auto. intros; contradiction.
  - intros E. unfold bind at 1.
    destruct (exit s) as [[[]|e] s1] eqn:E1; [|reflexivity].
    cbn in E. apply exit_closed. exact E.
  - intros h E.
    assert (Hs : self (snd (exit s)) = self s).
    { destruct (h_cam (self s)) as [h0|] eqn:E0.
      - rewrite (exit_open s h0 E0) in *. cbn in *.
        destruct (fst (is_ExitCamera (Some h0) (drv s)) =? IS_SUCCESS);
          [discriminate|reflexivity].
      - now rewrite (exit_closed s E0). }
    split; [exact Hs|].
    unfold bind at 1.
    destruct (exit s) as [[[]|e] s1] eqn:E1.
    + cbn [fst snd] in *. rewrite (exit_open s1 h E). cbn [fst snd self].
      destruct (fst (is_ExitCamera (Some h) (drv s1)) =? IS_SUCCESS) eqn:R.
      * apply Z.eqb_eq in R. cbn. tauto.
      * apply Z.eqb_neq in R. rewrite E. split; [discriminate|tauto].
    + exfalso. destruct (h_cam (self s)) as [h0|] eqn:E0.
      * rewrite (exit_open s h0 E0) in E1. discriminate.
      * rewrite (exit_closed s E0) in E1. discriminate.
Qed.

(** *** Frame rate *)

Lemma Qltb_lt (a b : Q) : Qltb a b = true <-> (a < b)%Q.
Proof.
  unfold Qltb. rewrite negb_true_iff, <- not_true_iff_false, Qle_bool_iff.
  split; [apply Qnot_le_lt|apply Qlt_not_le].
Qed.

Lemma Qltb_ge (a b : Q) : Qltb a b = false <-> (b <= a)%Q.
Proof.
  unfold Qltb. rewrite negb_false_iff. apply Qle_bool_iff.
Qed.

Lemma get_fps_cached (s : State D) (v : Q) :
  current_fps (self s) = Some v -> get_fps s = (Ret v, s).
Proof.
  intros E. unfold get_fps, bind, gets, ret. cbn. rewrite E. reflexivity.
Qed.

Lemma check_fails {S} (r : Z) (s : S) :
  r <> IS_SUCCESS -> check r s = (Exc (uEyeException r), s).
Proof. intros E. unfold check. apply Z.eqb_neq in E. now rewrite E. Qed.

(** C8, as amended: [set_fps] asks the driver for the target clamped into
    the range of [get_fps_range] (the range minimum for a target below the
    range, the range maximum for one above it, the target itself within
    it), returns the frame rate the driver reports for that request,
    whatever it is, and caches it; once a value is cached, [get_fps]
    returns it without calling the driver.  When the driver refuses the
    request, [set_fps] raises and the cache is left as it was. *)
Theorem set_fps_reports_driver_value
  (s s1 : State D) (fps lo hi : Q) :
  get_fps_range s = (Ret (lo, hi), s1) ->
  exists applied : Q,
    ((fps < lo)%Q -> (lo <= hi)%Q -> applied = lo) /\
    ((hi < fps)%Q -> (lo <= fps)%Q -> applied = hi) /\
    ((lo <= fps)%Q -> (fps <= hi)%Q -> applied = fps) /\
    (forall new_fps,
       fst (is_SetFrameRate (h_cam (self s1)) applied (drv s1))
       = (IS_SUCCESS, new_fps) ->
       exists s2,
         set_fps fps s = (Ret new_fps, s2) /\
         current_fps (self s2) = Some new_fps /\
         drv s2 = snd (is_SetFrameRate (h_cam (self s1)) applied (drv s1)) /\
         get_fps s2 = (Ret new_fps, s2)) /\
    (forall r new_fps,
       fst (is_SetFrameRate (h_cam (self s1)) applied (drv s1))
       = (r, new_fps) ->
       r <> IS_SUCCESS ->
       fst (set_fps fps s) = Exc (uEyeException r) /\
       current_fps (self (snd (set_fps fps s))) = current_fps (self s1)) /\
    (forall v t, current_fps (self t) = Some v -> get_fps t = (Ret v, t)).
Proof.
  intros Hr.
  exists (let f1 := if Qltb fps lo then lo else fps in
          if Qltb hi f1 then hi else f1).
  split; [|split; [|split]].
  - intros H1 H2. apply Qltb_lt in H1. rewrite H1.
    apply Qltb_ge in H2. cbn zeta. now rewrite H2.
  - intros H1 H2. apply Qltb_ge in H2. rewrite H2. cbn zeta.
    apply Qltb_lt in H1. now rewrite H1.
  - intros H1 H2. apply Qltb_ge in H1. rewrite H1. cbn zeta.
    apply Qltb_ge in H2. now rewrite H2.
  - cbn zeta.
    set (applied := if Qltb hi (if Qltb fps lo then lo else fps)
                    then hi else if Qltb fps lo then lo else fps).
    split; [|split].
    + intros new_fps Hd.
      unfold set_fps, bind. rewrite Hr. fold applied.
      unfold handle, gets, call, modify, ret. cbn [fst snd].
      destruct (is_SetFrameRate (h_cam (self s1)) applied (drv s1))
        as [[r nf] dr] eqn:Ed.
      cbn [fst snd] in Hd. injection Hd as -> ->.
      cbn. eexists. split; [reflexivity|].
      split; [reflexivity|]. split; [reflexivity|].
      apply get_fps_cached. reflexivity.
    + intros r new_fps Hd Hne.
      unfold set_fps, bind. rewrite Hr. fold applied.
      unfold handle, gets, call, modify, ret. cbn [fst snd].
      destruct (is_SetFrameRate (h_cam (self s1)) applied (drv s1))
        as [[r' nf] dr] eqn:Ed.
      cbn [fst snd] in Hd. injection Hd as -> ->.
      cbn [fst snd]. rewrite check_fails by exact Hne. cbn. split; reflexivity.
    + intros v t. apply get_fps_cached.
Qed.

(** *** The default timeout *)

Lemma int_of_float_nonneg (x : Q) :
  (0 <= x)%Q -> int_of_float x = Qfloor x.
Proof.
  destruct x as [n dn]. unfold Qle, int_of_float, Qfloor. cbn.
  intros Hn. apply Z.quot_div_nonneg; lia.
Qed.

Lemma int_of_float_nonpos (x : Q) :
  (x <= 0)%Q -> int_of_float x = - Qfloor (- x).
Proof.
  destruct x as [n dn]. unfold Qle, int_of_float, Qfloor, Qopp. cbn.
  intros Hn. rewrite <- (Z.opp_involutive n) at 1.
  rewrite Z.quot_opp_l by lia. f_equal.
  apply Z.quot_div_nonneg; lia.
Qed.

Lemma int_of_float_bounds (x : Q) :
  ((0 <= x)%Q ->
   (inject_Z (int_of_float x) <= x)%Q /\
   (x < inject_Z (int_of_float x) + 1)%Q) /\
  ((x <= 0)%Q ->
   (inject_Z (int_of_float x) - 1 < x)%Q /\
   (x <= inject_Z (int_of_float x))%Q).
Proof.
  split; intros Hx.
  - rewrite int_of_float_nonneg by exact Hx. split; [apply Qfloor_le|].
    pose proof (Qlt_floor x) as Hf. rewrite inject_Z_plus in Hf. exact Hf.
  - rewrite int_of_float_nonpos by exact Hx. rewrite inject_Z_opp.
    pose proof (Qfloor_le (- x)) as Hl. pose proof (Qlt_floor (- x)) as Hf.
    rewrite inject_Z_plus in Hf. change (inject_Z 1) with 1%Q in Hf.
    split; lra.
Qed.

Lemma Qfloor_unit (x : Q) : (1 <= x)%Q -> (x < 2)%Q -> Qfloor x = 1.
Proof.
  intros H1 H2.
  pose proof (Qfloor_resp_le _ _ H1) as Hl.
  change (Qfloor 1%Q) with 1 in Hl.
  pose proof (Qfloor_le x) as Hu.
  assert (Hlt : (inject_Z (Qfloor x) < inject_Z 2)%Q)
    by (eapply Qle_lt_trans; [exact Hu|exact H2]).
  rewrite <- Zlt_Qlt in Hlt. lia.
Qed.

(** The float expression of the timeout at a frame rate of 1, which
    stands for 0. *)
Lemma timeout_seconds_1 : timeout_seconds 1 = Finite (5 # 2).
Proof. vm_compute. reflexivity. Qed.

(** For a float above 3/2 it lies in [1, 2). *)
Lemma timeout_seconds_fast (f : Q) :
  (nearest64 f == f)%Q -> (3 # 2 < f)%Q ->
  exists x : Q,
    timeout_seconds f = Finite x /\ (1 <= x)%Q /\ (x < 2)%Q.
Proof.
  intros R L.
  pose proof (binary64_above_3_2 f R L) as A.
  assert (P : (pow2 (-52) == 1 # 4503599627370496)%Q) by reflexivity.
  rewrite P in A.
  set (c0 := (4503599627370496 # 6755399441055745)%Q).
  assert (G0 : (0 <= 1 / f)%Q)
    by (apply Qle_shift_div_l; lra).
  assert (G1 : (1 / f <= c0)%Q)
    by (apply Qle_shift_div_r; [lra|unfold c0; lra]).
  assert (M1 : (1 <= max_float)%Q) by (vm_compute; discriminate).
  assert (M3 : (3 <= max_float)%Q) by (vm_compute; discriminate).
  assert (C1 : (nearest64 c0 <= 1)%Q) by (vm_compute; discriminate).
  assert (C2 : (nearest64 ((3 # 2) * nearest64 c0) <= 2)%Q)
    by (vm_compute; discriminate).
  assert (C3 : (nearest64 (nearest64 ((3 # 2) * nearest64 c0) + 1) < 2)%Q)
    by (vm_compute; reflexivity).
  destruct (round64_nonneg (1 / f)) as (E1 & N1 & _); [exact G0|unfold c0 in G1; lra|].
  pose proof (nearest64_mono _ _ G0 G1) as B1.
  set (r1 := nearest64 (1 / f)) in *.
  assert (G2 : ((3 # 2) * r1 <= (3 # 2) * nearest64 c0)%Q) by lra.
  destruct (round64_nonneg ((3 # 2) * r1)) as (E2 & N2 & _); [lra|lra|].
  assert (Z2 : (0 <= (3 # 2) * r1)%Q) by lra.
  pose proof (nearest64_mono _ _ Z2 G2) as B2.
  set (r2 := nearest64 ((3 # 2) * r1)) in *.
  assert (G3 : (r2 + 1 <= nearest64 ((3 # 2) * nearest64 c0) + 1)%Q) by lra.
  destruct (round64_nonneg (r2 + 1)) as (E3 & N3 & _); [lra|lra|].
  assert (Z3 : (0 <= r2 + 1)%Q) by lra.
  pose proof (nearest64_mono _ _ Z3 G3) as B3.
  assert (L3 : (1 <= nearest64 (r2 + 1))%Q).
  { apply (nearest64_ge_grid (r2 + 1) 1 1 0);
      [reflexivity|reflexivity|discriminate|discriminate|lra]. }
  exists (nearest64 (r2 + 1)).
  split; [|split; [exact L3|lra]].
  unfold timeout_seconds, float_shift, float_scale.
  fold r1. rewrite E1. fold r2. rewrite E2. exact E3.
Qed.

(** From the smallest normal float on it does not overflow, and it is the
    exact value within three roundings. *)
Lemma timeout_seconds_bounds (f : Q) :
  (pow2 (-1022) <= f)%Q ->
  exists x : Q,
    timeout_seconds f = Finite x /\ (1 <= x)%Q /\
    (((3 # 2) * (1 / f) + 1) * (1 - pow2 (-50)) <= x)%Q /\
    (x <= ((3 # 2) * (1 / f) + 1) * (1 + pow2 (-50)))%Q.
Proof.
  intros L. pose proof (pow2_pos (-1022)) as P0.
  pose proof (pow2_pos 1022) as P1.
  assert (Hf : (0 < f)%Q) by lra.
  assert (G0 : (0 <= 1 / f)%Q) by (apply Qle_shift_div_l; lra).
  assert (G1 : (1 / f <= pow2 1022)%Q).
  { apply Qle_shift_div_r; [exact Hf|].
    assert (E : (pow2 1022 * pow2 (-1022) == 1)%Q)
      by (rewrite <- pow2_add; reflexivity).
    assert (M : (pow2 1022 * pow2 (-1022) <= pow2 1022 * f)%Q)
      by (apply Qmult_le_l; [exact P1|exact L]).
    lra. }
  assert (K1 : (pow2 1022 <= max_float)%Q) by (vm_compute; discriminate).
  assert (K2 : ((3 # 2) * pow2 1022 <= max_float)%Q)
    by (vm_compute; discriminate).
  assert (K3 : ((3 # 2) * pow2 1022 == inject_Z 3 * pow2 1021)%Q)
    by (vm_compute; reflexivity).
  assert (K4 : ((3 # 2) * pow2 1022 + 1 <= max_float)%Q)
    by (vm_compute; discriminate).
  assert (U : (pow2 (-53) == 1 # 9007199254740992)%Q) by reflexivity.
  assert (V : (pow2 (-50) == 1 # 1125899906842624)%Q) by reflexivity.
  assert (H1075 : (pow2 (-1075) <= 1 # 1152921504606846976)%Q)
    by (vm_compute; discriminate).
  pose proof (pow2_pos (-1075)) as Pe.
  destruct (round64_nonneg (1 / f)) as (E1 & N1 & _); [exact G0|lra|].
  assert (B1 : (nearest64 (1 / f) <= pow2 1022)%Q).
  { apply (nearest64_le_grid (1 / f) (pow2 1022) 1 1022);
      [change (inject_Z 1) with 1%Q; ring|reflexivity|discriminate
      |exact G0|exact G1]. }
  pose proof (nearest64_error (1 / f)) as R1.
  rewrite (Qabs_pos (1 / f)) in R1 by exact G0.
  apply Qabs_Qle_condition in R1.
  set (g := (1 / f)%Q) in *. set (r1 := nearest64 g) in *.
  destruct (round64_nonneg ((3 # 2) * r1)) as (E2 & N2 & _); [lra|lra|].
  assert (B2 : (nearest64 ((3 # 2) * r1) <= (3 # 2) * pow2 1022)%Q).
  { apply (nearest64_le_grid ((3 # 2) * r1) ((3 # 2) * pow2 1022) 3 1021);
      [exact K3|reflexivity|discriminate|lra|lra]. }
  pose proof (nearest64_error ((3 # 2) * r1)) as R2.
  rewrite (Qabs_pos ((3 # 2) * r1)) in R2 by lra.
  apply Qabs_Qle_condition in R2.
  set (r2 := nearest64 ((3 # 2) * r1)) in *.
  destruct (round64_nonneg (r2 + 1)) as (E3 & N3 & _); [lra|lra|].
  pose proof (nearest64_error (r2 + 1)) as R3.
  rewrite (Qabs_pos (r2 + 1)) in R3 by lra.
  apply Qabs_Qle_condition in R3.
  assert (L3 : (1 <= nearest64 (r2 + 1))%Q).
  { apply (nearest64_ge_grid (r2 + 1) 1 1 0);
      [reflexivity|reflexivity|discriminate|discriminate|lra]. }
  set (r3 := nearest64 (r2 + 1)) in *.
  exists r3. split.
  { unfold timeout_seconds, float_shift, float_scale.
    fold g. fold r1. rewrite E1. fold r2. rewrite E2. exact E3. }
  split; [exact L3|].
  rewrite U in R1, R2, R3. rewrite V.
  split; lra.
Qed.

(** At a positive rate up to [2^-1024] the reciprocal overflows. *)
Lemma timeout_seconds_overflow (f : Q) :
  (0 < f)%Q -> (f <= pow2 (-1024))%Q ->
  timeout_seconds f = Infinity false.
Proof.
  intros Hf L. pose proof (pow2_pos 1024) as P1.
  assert (G : (pow2 1024 <= 1 / f)%Q).
  { apply Qle_shift_div_l; [exact Hf|].
    assert (E : (pow2 1024 * pow2 (-1024) == 1)%Q)
      by (rewrite <- pow2_add; reflexivity).
    assert (M : (pow2 1024 * f <= pow2 1024 * pow2 (-1024))%Q)
      by (apply Qmult_le_l; [exact P1|exact L]).
    lra. }
  unfold timeout_seconds. now rewrite (round64_overflow _ G).
Qed.

(** C6, as amended: the default timeout is 1000 ms times the whole number
    of seconds in the float value of [1.5 * (1/f) + 1], truncated toward
    zero, [f = 0] being replaced by 1 before the reciprocal is taken and
    each of the three operations rounding to the nearest binary64: it is
    2000 ms for [f = 0] and 1000 ms for every float [f] above 1.5; from
    the smallest normal float on it is at least 1000 ms, and its whole
    number of seconds is that of [1.5 * (1/f) + 1] up to a relative
    [2^-50] of the latter; for a positive [f] up to [2^-1024] the
    reciprocal overflows and the conversion to [int] raises. *)
Theorem get_timeout_whole_seconds (s s1 : State D) (f : Q) :
  get_fps s = (Ret f, s1) ->
  (nearest64 f == f)%Q ->
  __get_timeout s
  = (match timeout_seconds (if Qeq_bool f 0 then 1%Q else f) with
     | Finite x => Ret (int_of_float x * 1000)
     | Infinity _ => Exc OverflowError
     end, s1) /\
  ((f == 0)%Q -> __get_timeout s = (Ret 2000, s1)) /\
  ((3 # 2 < f)%Q -> __get_timeout s = (Ret 1000, s1)) /\
  ((pow2 (-1022) <= f)%Q ->
   exists k : Z,
     __get_timeout s = (Ret (k * 1000), s1) /\
     1 <= k /\
     (((3 # 2) * (1 / f) + 1) * (1 - pow2 (-50)) - 1 < inject_Z k)%Q /\
     (inject_Z k <= ((3 # 2) * (1 / f) + 1) * (1 + pow2 (-50)))%Q) /\
  ((0 < f)%Q -> (f <= pow2 (-1024))%Q ->
   __get_timeout s = (Exc OverflowError, s1)).
Proof.
  intros Hf R.
  assert (G : __get_timeout s
              = (match timeout_seconds (if Qeq_bool f 0 then 1%Q else f) with
                 | Finite x => Ret (int_of_float x * 1000)
                 | Infinity _ => Exc OverflowError
                 end, s1)).
  { unfold __get_timeout, bind, int_of_binary64, ret, raise. rewrite Hf.
    cbn [fst snd].
    destruct (timeout_seconds (if Qeq_bool f 0 then 1%Q else f));
      reflexivity. }
  assert (Nz : (0 < f)%Q -> Qeq_bool f 0 = false).
  { intros Hp. apply not_true_iff_false. intros E.
    apply Qeq_bool_iff in E. lra. }
  split; [exact G|]. split; [|split; [|split]].
  - intros Hz. apply Qeq_bool_iff in Hz. rewrite G, Hz, timeout_seconds_1.
    reflexivity.
  - intros L. rewrite G, Nz by lra.
    destruct (timeout_seconds_fast f R L) as (x & -> & L1 & L2).
    rewrite int_of_float_nonneg by lra.
    now rewrite (Qfloor_unit x L1 L2).
  - intros L. pose proof (pow2_pos (-1022)) as P0.
    rewrite G, Nz by lra.
    destruct (timeout_seconds_bounds f L) as (x & -> & L1 & Lo & Hi).
    exists (int_of_float x). split; [reflexivity|].
    destruct (int_of_float_bounds x) as [B _].
    destruct B as [B1 B2]; [lra|].
    split; [|split; lra].
    rewrite int_of_float_nonneg by lra.
    pose proof (Qfloor_resp_le _ _ L1) as F. exact F.
  - intros Hp L. rewrite G, Nz by exact Hp.
    now rewrite (timeout_seconds_overflow f Hp L).
Qed.

(** The timeout argument left out selects [__get_timeout]. *)
Lemma default_timeout_None : default_timeout None = __get_timeout.
Proof. reflexivity. Qed.

(** *** Capturing several images *)

(** C5: when the wait for the frame of index [i] does not return success,
    the warning of [capture_images] names [d], which is bound nowhere: the
    call raises [NameError], prints nothing, records no slot and does not
    go on to the next index. *)
Theorem capture_loop_miss_raises
  (nmb timeout i : Z) (rest : list Z) (ims : list (option ImageBuffer))
  (s : State D) :
  fst (fst (is_WaitForNextImage (h_cam (self s)) timeout (drv s)))
  <> IS_SUCCESS ->
  capture_loop nmb timeout (i :: rest) ims s
  = (Exc (NameError "d"),
     {| self := self s;
        drv := snd (is_WaitForNextImage (h_cam (self s)) timeout (drv s));
        stdout := stdout s |}).
Proof.
  intros Hne. cbn [capture_loop].
  unfold bind, handle, gets, call. cbn [fst snd].
  destruct (is_WaitForNextImage (h_cam (self s)) timeout (drv s))
    as [[r b] dr]. cbn [fst snd] in *.
  apply Z.eqb_neq in Hne. rewrite Hne. reflexivity.
Qed.

(** A sequence that the loop returns holds a frame in every new slot, and
    no empty one. *)
Lemma capture_loop_no_empty_slot
  (nmb timeout : Z) (idx : list Z) :
  forall (ims out : list (option ImageBuffer)) (s s' : State D),
    capture_loop nmb timeout idx ims s = (Ret out, s') ->
    exists frames,
      out = ims ++ List.map Some frames /\
      List.length frames = List.length idx.
Proof.
  induction idx as [|i rest IH]; intros ims out s s' E.
  - cbn in E. injection E as <- <-. exists []. now rewrite app_nil_r.
  - cbn [capture_loop] in E.
    unfold bind, handle, gets, call, unlock in E. cbn [fst snd] in E.
    destruct (is_WaitForNextImage (h_cam (self s)) timeout (drv s))
      as [[r b] dr].
    destruct (r =? IS_SUCCESS).
    + unfold bind, handle, gets, call in E. cbn [fst snd self drv] in E.
      match type of E with
      | context [is_UnlockSeqBuf ?h ?bf ?dv] =>
          destruct (is_UnlockSeqBuf h bf dv) as [ru du]
      end.
      unfold ret in E. apply IH in E. destruct E as (frames & -> & L).
      exists (b :: frames). cbn. rewrite <- app_assoc. split; [reflexivity|].
      now rewrite L.
    + cbn in E. discriminate.
Qed.

End Driven.

(** C9 as stated fails: on a device that refuses to close at the first
    request and accepts the second, one [exit] leaves the handle open and
    two in a row leave it closed. *)
Lemma exit_twice_differs_from_once :
  h_cam (self (snd (exit (opened device_busy)))) = Some 0 /\
  h_cam (self (snd (bind exit (fun _ => exit) (opened device_busy)))) = None.
Proof. split; reflexivity. Qed.

(** Witness of [set_fps_reports_driver_value]: 10 fps asked of a device
    whose frame rates lie 1/100 above the requested ones. *)
Lemma set_fps_witness :
  exists applied : Q,
    ((10 < 1)%Q -> (1 <= 30)%Q -> applied = 1%Q) /\
    ((30 < 10)%Q -> (1 <= 10)%Q -> applied = 30%Q) /\
    ((1 <= 10)%Q -> (10 <= 30)%Q -> applied = 10%Q) /\
    fst (set_fps 10 (opened device_offset)) = Ret (10 + (1 # 100))%Q.
Proof.
  assert (Hr : get_fps_range (opened device_offset)
               = (Ret (1%Q, 30%Q),
                  snd (get_fps_range (opened device_offset))))
    by reflexivity.
  destruct (set_fps_reports_driver_value (opened device_offset)
              (snd (get_fps_range (opened device_offset))) 10 1 30 Hr)
    as (applied & H1 & H2 & H3 & H4 & _).
  exists applied. split; [exact H1|]. split; [exact H2|]. split; [exact H3|].
  assert (Ea : applied = 10%Q) by (apply H3; discriminate).
  rewrite Ea in H4.
  destruct (H4 (10 + (1 # 100))%Q eq_refl) as (s2 & E & _).
  rewrite E. reflexivity.
Defined.

(** C8 as stated fails: a target below the range is clamped to the range
    minimum 1, and [set_fps] returns the 101/100 that the device reports
    for it, not the minimum. *)
Lemma set_fps_below_range_returns_report :
  fst (get_fps_range (opened device_offset)) = Ret (1%Q, 30%Q) /\
  fst (set_fps (1 # 2) (opened device_offset)) = Ret (1 + (1 # 100))%Q /\
  ~ (1 + (1 # 100) == 1)%Q.
Proof. repeat split. discriminate. Qed.

(** Witness of [get_timeout_whole_seconds]: a device at 30 fps. *)
Lemma get_timeout_30fps :
  (nearest64 30 == 30)%Q /\
  __get_timeout (opened device30)
  = (Ret 1000, snd (get_fps (opened device30))).
Proof.
  assert (Hf : get_fps (opened device30)
               = (Ret 30%Q, snd (get_fps (opened device30))))
    by reflexivity.
  assert (R : (nearest64 30 == 30)%Q) by reflexivity.
  split; [exact R|].
  refine (proj1 (proj2 (proj2 (get_timeout_whole_seconds (opened device30)
                                 (snd (get_fps (opened device30))) 30 Hf R)))
            _).
  reflexivity.
Defined.

(** C6 as stated fails: at 30 fps the default timeout is 1000 ms, and that
    is what [capture_image] waits for, while 1.5 * (1/30) + 1 seconds are
    1050 ms. *)
Lemma default_timeout_30fps_is_1000 :
  fst (__get_timeout (opened device30)) = Ret 1000 /\
  seen_timeouts (drv (snd (capture_image None (opened device30)))) = [1000] /\
  (((3 # 2) * (1 / 30) + 1) * 1000 == 1050)%Q /\
  ~ (inject_Z 1000 == ((3 # 2) * (1 / 30) + 1) * 1000)%Q.
Proof.
  split; [vm_compute; reflexivity|].
  split; [vm_compute; reflexivity|].
  split; [reflexivity|discriminate].
Qed.

(** The same in binary64: 1000 ms at 30 fps, 2000 ms at 0 fps, and
    16000 ms at the float nearest to 0.1, whose reciprocal rounds up to 10 (the exact
    value [1.5 * (1/f) + 1] of that float lies just below 16).  The
    embedding gives what binary64 gives. *)
Lemma get_timeout_binary64_examples :
  get_timeout_binary64 30 = Some 1000 /\
  get_timeout_binary64 0 = Some 2000 /\
  get_timeout_binary64 0x1.999999999999ap-4 = Some 16000 /\
  get_timeout_of_float 30 = Some (Ret 1000) /\
  get_timeout_of_float 0 = Some (Ret 2000) /\
  get_timeout_of_float 0x1.999999999999ap-4 = Some (Ret 16000) /\
  option_map (fun f => int_of_float ((3 # 2) * (1 / f) + 1))
    (float_value 0x1.999999999999ap-4) = Some 15 /\
  get_timeout_of_float 0x1p-1030 = Some (Exc OverflowError).
Proof. repeat split; vm_compute; reflexivity. Qed.

(** Witness of [capture_loop_miss_raises]: the first of two waits times
    out. *)
Lemma capture_loop_miss_witness :
  fst (capture_loop 2 1000 [0; 1] [] (opened device30))
  = Exc (NameError "d").
Proof.
  rewrite (capture_loop_miss_raises 2 1000 0 [1] [] (opened device30)).
  - reflexivity.
  - discriminate.
Defined.

(** [capture_images(2)] on a device that delivers one frame and then
    none in time: the second wait misses, and the call ends in [NameError]
    instead of returning a sequence of length 2 with an empty slot. *)
Lemma capture_images_miss_aborts :
  fst (capture_images 2 (Some 1000) false (opened device_one_frame))
  = Exc (NameError "d") /\
  stdout (snd (capture_images 2 (Some 1000) false (opened device_one_frame)))
  = [].
Proof. split; reflexivity. Qed.

(** ** Further properties of the camera *)

Section DrivenMore.

Context {D : Type} `{Driver D} `{DriverExt D}.

Lemma bind_Ret {S A B} (m : Py S A) (k : A -> Py S B) (s s1 : S) (a : A) :
  m s = (Ret a, s1) -> bind m k s = k a s1.
Proof. intros E. unfold bind. now rewrite E. Qed.

Lemma bind_Exc {S A B} (m : Py S A) (k : A -> Py S B) (s s1 : S) (e : exn) :
  m s = (Exc e, s1) -> bind m k s = (Exc e, s1).
Proof. intros E. unfold bind. now rewrite E. Qed.

(** *** Buffers *)

Lemma free_buffers_self (bs : list ImageBuffer) (s : State D) :
  self (snd (free_buffers bs s)) = self s /\
  stdout (snd (free_buffers bs s)) = stdout s.
Proof.
  revert s. induction bs as [|b bs IH]; intros s; [cbn; now split|].
  cbn [free_buffers]. unfold bind, handle, gets, call, check. cbn [fst snd].
  destruct (is_FreeImageMem (h_cam (self s)) b (drv s)) as [r dr].
  cbn [fst snd self drv stdout].
  destruct (r =? IS_SUCCESS); cbn [fst snd].
  - unfold ret. cbn [fst snd]. now rewrite !(proj1 (IH _)), !(proj2 (IH _)).
  - now split.
Qed.

Lemma create_buffers_grows (n : nat) (rect : Rect) (bpp : Z) (s : State D) :
  exists new,
    img_buffers (self (snd (create_buffers n rect bpp s)))
    = img_buffers (self s) ++ new /\
    buffer_count (self (snd (create_buffers n rect bpp s)))
    = buffer_count (self s) /\
    h_cam (self (snd (create_buffers n rect bpp s))) = h_cam (self s) /\
    current_fps (self (snd (create_buffers n rect bpp s)))
    = current_fps (self s) /\
    match fst (create_buffers n rect bpp s) with
    | Ret _ => List.length new = n
    | Exc _ => (List.length new < n)%nat
    end.
Proof.
  revert s. induction n as [|n IH]; intros s.
  - exists []. cbn. now rewrite app_nil_r.
  - cbn [create_buffers].
    unfold bind, handle, gets, call, check, modify. cbn [fst snd self drv].
    destruct (is_AllocImageMem (h_cam (self s)) (width rect) (height rect)
                bpp (drv s)) as [[ra buff] da].
    cbn [fst snd self drv].
    destruct (is_AddToSequence (h_cam (self s)) buff da) as [r dr].
    cbn [fst snd self drv].
    destruct (r =? IS_SUCCESS); cbn [fst snd].
    + unfold ret. cbn [fst snd self].
      match goal with
      | |- context [create_buffers n rect bpp ?s1] =>
          destruct (IH s1) as (new & E & Eb & Eh & Ec & L)
      end.
      exists (buff :: new). rewrite E, Eb, Eh, Ec. cbn.
      rewrite <- app_assoc. repeat split; auto.
      destruct (fst (create_buffers n rect bpp _)); lia.
    + exists []. cbn. rewrite app_nil_r. repeat split; auto. lia.
Qed.

(** What [alloc] leaves behind, whether it returns or raises. *)
Lemma alloc_buffers (s : State D) :
  buffer_count (self (snd (alloc s))) = buffer_count (self s) /\
  h_cam (self (snd (alloc s))) = h_cam (self s) /\
  current_fps (self (snd (alloc s))) = current_fps (self s) /\
  match fst (alloc s) with
  | Ret _ =>
      List.length (img_buffers (self (snd (alloc s))))
      = Z.to_nat (buffer_count (self s))
  | Exc _ =>
      img_buffers (self (snd (alloc s))) = img_buffers (self s) \/
      (List.length (img_buffers (self (snd (alloc s))))
       < Z.to_nat (buffer_count (self s)))%nat
  end.
Proof.
  unfold alloc, get_aoi, get_colormode, bind, handle, gets, call, ret,
    modify.
  cbn [fst snd self drv].
  destruct (is_AOI_get (h_cam (self s)) (drv s)) as [[ra rect] d1].
  cbn [fst snd self drv].
  destruct (is_SetColorMode (h_cam (self s)) IS_GET_COLOR_MODE d1)
    as [cm d2].
  cbn [fst snd self drv].
  destruct (get_bits_per_pixel cm) as [bpp|e]; cbn [fst snd self];
    [|repeat split; now left].
  match goal with
  | |- context [free_buffers ?bs ?s1] =>
      pose proof (free_buffers_self bs s1) as [Hf _];
      destruct (free_buffers bs s1) as [[[]|e] s2]
  end; cbn [fst snd self] in *.
  2:{ rewrite Hf. repeat split. now left. }
  match goal with
  | |- context [create_buffers ?n rect bpp ?s3] =>
      destruct (create_buffers_grows n rect bpp s3)
        as (new & E & Eb & Eh & Ec & L);
      destruct (create_buffers n rect bpp s3) as [[[]|e] s4]
  end; cbn [fst snd self with_self set_img_buffers img_buffers buffer_count
            h_cam current_fps app] in *.
  - destruct (is_InitImageQueue (h_cam (self s4)) 0 (drv s4)) as [ri di].
    cbn [fst snd self]. rewrite E, Eb, Eh, Ec, Hf. repeat split.
    rewrite L, Hf. reflexivity.
  - rewrite E, Eb, Eh, Ec, Hf. repeat split. right.
    rewrite Hf in L. exact L.
Qed.

(** X8: when [alloc] returns, the camera tracks exactly [buffer_count]
    buffers (none for a count of zero or less), whatever it tracked before;
    its handle, its count and its cached frame rate are as they were. *)
Theorem alloc_tracks_buffer_count (s s' : State D) :
  alloc s = (Ret tt, s') ->
  List.length (img_buffers (self s')) = Z.to_nat (buffer_count (self s)) /\
  buffer_count (self s') = buffer_count (self s) /\
  h_cam (self s') = h_cam (self s) /\
  current_fps (self s') = current_fps (self s).
Proof.
  intros E. pose proof (alloc_buffers s) as (Hb & Hh & Hc & Hl).
  rewrite E in *. cbn [fst snd] in *. auto.
Qed.

(** The second loop of [alloc], when it raises: the camera tracks the
    buffers registered until then, and the failure is that of the next
    registration. *)
Lemma create_buffers_fails
  (n : nat) (rect : Rect) (bpp : Z) (s s' : State D) (e : exn) :
  create_buffers n rect bpp s = (Exc e, s') ->
  exists (bufs : list ImageBuffer) (d1 : D),
    registers (h_cam (self s)) rect bpp (drv s) bufs d1 /\
    img_buffers (self s') = img_buffers (self s) ++ bufs /\
    (List.length bufs < n)%nat /\
    fst (is_AddToSequence (h_cam (self s))
           (snd (fst (is_AllocImageMem (h_cam (self s)) (width rect)
                        (height rect) bpp d1)))
           (snd (is_AllocImageMem (h_cam (self s)) (width rect)
                   (height rect) bpp d1)))
    <> IS_SUCCESS /\
    e = uEyeException
          (fst (is_AddToSequence (h_cam (self s))
                  (snd (fst (is_AllocImageMem (h_cam (self s)) (width rect)
                               (height rect) bpp d1)))
                  (snd (is_AllocImageMem (h_cam (self s)) (width rect)
                          (height rect) bpp d1)))) /\
    drv s'
    = snd (is_AddToSequence (h_cam (self s))
             (snd (fst (is_AllocImageMem (h_cam (self s)) (width rect)
                          (height rect) bpp d1)))
             (snd (is_AllocImageMem (h_cam (self s)) (width rect)
                     (height rect) bpp d1))).
Proof.
  revert s. induction n as [|n IH]; intros s; [discriminate|].
  cbn [create_buffers].
  unfold bind, handle, gets, call, check, modify. cbn [fst snd self drv].
  destruct (is_AllocImageMem (h_cam (self s)) (width rect) (height rect)
              bpp (drv s)) as [[ra buff] da] eqn:Ea.
  cbn [fst snd self drv].
  destruct (is_AddToSequence (h_cam (self s)) buff da) as [r dr] eqn:Er.
  cbn [fst snd self drv].
  destruct (r =? IS_SUCCESS) eqn:C; cbn [fst snd].
  - apply Z.eqb_eq in C. subst r. unfold ret. cbn [fst snd self].
    intros E. apply IH in E.
    cbn [self drv with_self set_img_buffers h_cam img_buffers] in E.
    destruct E as (bufs & d1 & Hr & Hb & Hl & Hn & He & Hd).
    exists (buff :: bufs), d1.
    split.
    { pose proof (registers_cons (h_cam (self s)) rect bpp (drv s) d1 bufs)
        as K.
      rewrite Ea in K. cbn [fst snd] in K. rewrite Er in K.
      cbn [fst snd] in K. apply K; [reflexivity|exact Hr]. }
    split; [rewrite Hb, <- app_assoc; reflexivity|].
    split; [cbn [List.length]; lia|].
    split; [exact Hn|]. split; [exact He|exact Hd].
  - apply Z.eqb_neq in C. unfold raise. intros [= <- <-].
    exists [], (drv s). rewrite Ea. cbn [fst snd]. rewrite Er.
    cbn [fst snd self drv List.length].
    split; [constructor|]. split; [now rewrite app_nil_r|].
    split; [lia|]. now repeat split.
Qed.

(** [alloc] is its settings part followed by the reset of the list, the
    second loop and the start of the queue. *)
Lemma alloc_split (s : State D) :
  alloc s
  = match alloc_settings s with
    | (Ret (rect, bpp), s0) =>
        bind (create_buffers (Z.to_nat (buffer_count (self s0))) rect bpp)
          (fun _ => bind handle (fun h =>
             bind (call (is_InitImageQueue h 0)) (fun _ => ret tt)))
          (with_self (set_img_buffers []) s0)
    | (Exc e, s0) => (Exc e, s0)
    end.
Proof.
  unfold alloc, alloc_settings, get_aoi, get_colormode, bind, handle, gets,
    call, ret, modify.
  cbn [fst snd self drv].
  destruct (is_AOI_get (h_cam (self s)) (drv s)) as [[ra rect] d1].
  cbn [fst snd self drv].
  destruct (is_SetColorMode (h_cam (self s)) IS_GET_COLOR_MODE d1)
    as [cm d2].
  cbn [fst snd self drv].
  destruct (get_bits_per_pixel cm) as [bpp|e]; cbn [fst snd self];
    [|reflexivity].
  match goal with
  | |- context [free_buffers ?bs ?s1] =>
      destruct (free_buffers bs s1) as [[[]|e] s2]
  end; reflexivity.
Qed.

Lemma alloc_settings_self (s : State D) :
  self (snd (alloc_settings s)) = self s.
Proof.
  unfold alloc_settings, get_aoi, get_colormode, bind, handle, gets, call,
    ret.
  cbn [fst snd self drv].
  destruct (is_AOI_get (h_cam (self s)) (drv s)) as [[ra rect] d1].
  cbn [fst snd self drv].
  destruct (is_SetColorMode (h_cam (self s)) IS_GET_COLOR_MODE d1)
    as [cm d2].
  cbn [fst snd self drv].
  destruct (get_bits_per_pixel cm) as [bpp|e]; cbn [fst snd self];
    [|reflexivity].
  match goal with
  | |- context [free_buffers ?bs ?s1] =>
      pose proof (free_buffers_self bs s1) as [Hf _];
      destruct (free_buffers bs s1) as [[[]|e] s2]
  end; cbn [fst snd self] in *; exact Hf.
Qed.

(** X9: when [alloc] raises, nothing is rolled back.  When the failure
    comes while the settings are read or the old buffers are freed, the
    camera still tracks the buffers it had (some of them may have been
    freed).  When it comes later, it is the registration of a new buffer
    that the driver refused: the camera then tracks exactly the new
    buffers registered until then, fewer than [buffer_count], the old
    list is gone, and the buffer that was refused has been allocated but
    is not tracked. *)
Theorem alloc_failure_is_partial (s s' : State D) (e : exn) :
  alloc s = (Exc e, s') ->
  match alloc_settings s with
  | (Exc e0, s0) =>
      e = e0 /\ s' = s0 /\ img_buffers (self s') = img_buffers (self s)
  | (Ret (rect, bpp), s0) =>
      exists (bufs : list ImageBuffer) (d1 : D),
        registers (h_cam (self s)) rect bpp (drv s0) bufs d1 /\
        img_buffers (self s') = bufs /\
        (List.length bufs < Z.to_nat (buffer_count (self s)))%nat /\
        fst (is_AddToSequence (h_cam (self s))
               (snd (fst (is_AllocImageMem (h_cam (self s)) (width rect)
                            (height rect) bpp d1)))
               (snd (is_AllocImageMem (h_cam (self s)) (width rect)
                       (height rect) bpp d1)))
        <> IS_SUCCESS /\
        e = uEyeException
              (fst (is_AddToSequence (h_cam (self s))
                      (snd (fst (is_AllocImageMem (h_cam (self s))
                                   (width rect) (height rect) bpp d1)))
                      (snd (is_AllocImageMem (h_cam (self s)) (width rect)
                              (height rect) bpp d1)))) /\
        drv s'
        = snd (is_AddToSequence (h_cam (self s))
                 (snd (fst (is_AllocImageMem (h_cam (self s)) (width rect)
                              (height rect) bpp d1)))
                 (snd (is_AllocImageMem (h_cam (self s)) (width rect)
                         (height rect) bpp d1)))
  end.
Proof.
  rewrite alloc_split. pose proof (alloc_settings_self s) as Hs.
  destruct (alloc_settings s) as [[[rect bpp]|e0] s0]; cbn [snd] in Hs.
  - intros E.
    destruct (create_buffers (Z.to_nat (buffer_count (self s0))) rect bpp
                (with_self (set_img_buffers []) s0))
      as [[[]|e1] s1] eqn:Ec.
    + rewrite (bind_Ret _ _ _ _ _ Ec) in E.
      unfold bind, handle, gets, call, ret in E. cbn [fst snd] in E.
      destruct (is_InitImageQueue (h_cam (self s1)) 0 (drv s1)).
      discriminate.
    + rewrite (bind_Exc _ _ _ _ _ Ec) in E. injection E as <- <-.
      apply create_buffers_fails in Ec.
      cbn [self drv with_self set_img_buffers h_cam img_buffers app] in Ec.
      rewrite Hs in Ec. exact Ec.
  - intros [= <- <-]. rewrite Hs. now repeat split.
Qed.

(** *** Single and multiple captures *)

(** X10: [capture_image] stops the video only when it got a frame: on a
    timeout it returns [None] and the wait is the last call it makes to
    the driver (the video keeps running); on success it returns the frame
    after unlocking its buffer and then stopping the video, in this
    order. *)
Theorem capture_image_stops_only_on_success
  (timeout : option Z) (tm : Z) (s s1 : State D) :
  bind (default_timeout timeout)
    (fun t => bind (capture_video false) (fun _ => ret t)) s
  = (Ret tm, s1) ->
  (fst (fst (is_WaitForNextImage (h_cam (self s1)) tm (drv s1)))
   <> IS_SUCCESS ->
   capture_image timeout s
   = (Ret None,
      {| self := self s1;
         drv := snd (is_WaitForNextImage (h_cam (self s1)) tm (drv s1));
         stdout := stdout s1 |})) /\
  (fst (fst (is_WaitForNextImage (h_cam (self s1)) tm (drv s1)))
   = IS_SUCCESS ->
   capture_image timeout s
   = (Ret (Some (snd (fst (is_WaitForNextImage (h_cam (self s1)) tm
                             (drv s1))))),
      {| self := self s1;
         drv := snd (is_StopLiveVideo (h_cam (self s1)) IS_FORCE_VIDEO_STOP
                       (snd (is_UnlockSeqBuf (h_cam (self s1))
                               (snd (fst (is_WaitForNextImage
                                            (h_cam (self s1)) tm (drv s1))))
                               (snd (is_WaitForNextImage (h_cam (self s1))
                                       tm (drv s1))))));
         stdout := stdout s1 |})).
Proof.
  intros Hpre. unfold capture_image.
  destruct (default_timeout timeout s) as [[t0|e] s0] eqn:E0.
  2:{ rewrite (bind_Exc _ _ _ _ _ E0) in Hpre. discriminate. }
  rewrite (bind_Ret _ _ _ _ _ E0) in Hpre. rewrite (bind_Ret _ _ _ _ _ E0).
  destruct (capture_video false s0) as [[c|e] s2] eqn:E1.
  2:{ rewrite (bind_Exc _ _ _ _ _ E1) in Hpre. discriminate. }
  rewrite (bind_Ret _ _ _ _ _ E1) in Hpre. rewrite (bind_Ret _ _ _ _ _ E1).
  injection Hpre as -> ->.
  unfold bind, handle, gets, call, unlock, stop_video, ret.
  cbn [fst snd self drv].
  destruct (is_WaitForNextImage (h_cam (self s1)) tm (drv s1))
    as [[r b] dw]. cbn [fst snd self drv stdout].
  split; intros Hr.
  - apply Z.eqb_neq in Hr. rewrite Hr. reflexivity.
  - subst r. cbn [Z.eqb IS_SUCCESS].
    unfold bind, handle, gets, call. cbn [fst snd self drv img_buffer].
    destruct (is_UnlockSeqBuf (h_cam (self s1)) b dw) as [ru du].
    cbn [fst snd self drv stdout].
    destruct (is_StopLiveVideo (h_cam (self s1)) IS_FORCE_VIDEO_STOP du)
      as [rs ds].
    reflexivity.
Qed.

Lemma range_length (n : Z) : List.length (range n) = Z.to_nat n.
Proof. unfold range. now rewrite length_map, length_seq. Qed.

(** X11: a sequence that [capture_images] returns has [nmb] entries (none
    for [nmb <= 0]) and each of them is a frame: the call never returns a
    sequence with an empty slot. *)
Theorem capture_images_returns_frames_only
  (nmb : Z) (timeout : option Z) (send_io : bool) (s s' : State D)
  (out : list (option ImageBuffer)) :
  capture_images nmb timeout send_io s = (Ret out, s') ->
  List.length out = Z.to_nat nmb /\
  Forall (fun slot => slot <> None) out.
Proof.
  unfold capture_images. intros E.
  destruct (default_timeout timeout s) as [[tm|e] s0] eqn:E0.
  2:{ rewrite (bind_Exc _ _ _ _ _ E0) in E. discriminate. }
  rewrite (bind_Ret _ _ _ _ _ E0) in E.
  destruct (capture_video false s0) as [[c|e] s1] eqn:E1.
  2:{ rewrite (bind_Exc _ _ _ _ _ E1) in E. discriminate. }
  rewrite (bind_Ret _ _ _ _ _ E1) in E.
  destruct ((if send_io then set_gpio 1 else ret tt) s1) as [[[]|e] s2]
    eqn:E2.
  2:{ rewrite (bind_Exc _ _ _ _ _ E2) in E. discriminate. }
  rewrite (bind_Ret _ _ _ _ _ E2) in E.
  destruct (capture_loop nmb tm (range nmb) [] s2) as [[ims|e] s3] eqn:El.
  2:{ rewrite (bind_Exc _ _ _ _ _ El) in E. discriminate. }
  rewrite (bind_Ret _ _ _ _ _ El) in E.
  apply capture_loop_no_empty_slot in El. destruct El as (frames & -> & L).
  destruct (stop_video s3) as [[c3|e] s4] eqn:E3.
  2:{ rewrite (bind_Exc _ _ _ _ _ E3) in E. discriminate. }
  rewrite (bind_Ret _ _ _ _ _ E3) in E.
  destruct ((if send_io then set_gpio 0 else ret tt) s4) as [[[]|e] s5]
    eqn:E4.
  2:{ rewrite (bind_Exc _ _ _ _ _ E4) in E. discriminate. }
  rewrite (bind_Ret _ _ _ _ _ E4) in E.
  revert E.
  intros [= <- <-]. cbn [app]. split.
  - now rewrite length_map, L, range_length.
  - apply Forall_forall. intros slot Hin. apply in_map_iff in Hin.
    destruct Hin as (b & <- & _). discriminate.
Qed.

(** *** Opening the camera *)

(** X12: [init] keeps the handle when the driver opens the camera and
    returns its code; when the driver refuses, it resets the handle to
    [None] and raises the error with the driver's code, and so does
    [__enter__]; a later [exit] then finds the handle closed: it changes
    nothing and makes no call to the driver. *)
Theorem init_failure_closes_handle (s : State D) :
  (fst (is_InitCamera (h_cam (self s)) (drv s)) = IS_SUCCESS ->
   init s
   = (Ret IS_SUCCESS,
      {| self := self s;
         drv := snd (is_InitCamera (h_cam (self s)) (drv s));
         stdout := stdout s |})) /\
  (fst (is_InitCamera (h_cam (self s)) (drv s)) <> IS_SUCCESS ->
   init s
   = (Exc (uEyeException (fst (is_InitCamera (h_cam (self s)) (drv s)))),
      {| self := set_h_cam None (self s);
         drv := snd (is_InitCamera (h_cam (self s)) (drv s));
         stdout := stdout s |}) /\
   fst (__enter__ s)
   = Exc (uEyeException (fst (is_InitCamera (h_cam (self s)) (drv s)))) /\
   exit (snd (init s)) = (Ret tt, snd (init s)) /\
   __exit__ (snd (__enter__ s)) = (Ret tt, snd (__enter__ s))).
Proof.
  unfold __enter__, __exit__, init, bind, handle, gets, call, modify, raise,
    ret.
  cbn [fst snd self drv].
  destruct (is_InitCamera (h_cam (self s)) (drv s)) as [r dr].
  cbn [fst snd self drv stdout]. split; intros Hr.
  - subst r. reflexivity.
  - apply Z.eqb_neq in Hr. rewrite Hr. cbn [negb fst snd].
    repeat split; apply exit_closed; reflexivity.
Qed.

(** *** Frame rates *)


(** *** Pixel clock *)


End DrivenMore.

(** Witness of [alloc_tracks_buffer_count]: a camera made for three
    buffers, on the scripted device. *)
Lemma alloc_three_buffers :
  alloc (opened device30) = (Ret tt, snd (alloc (opened device30))) /\
  List.length (img_buffers (self (snd (alloc (opened device30))))) = 3%nat.
Proof.
  assert (E : alloc (opened device30)
              = (Ret tt, snd (alloc (opened device30)))) by reflexivity.
  split; [exact E|].
  exact (proj1 (alloc_tracks_buffer_count _ _ E)).
Defined.

(** Witness of [alloc_failure_is_partial]: three buffers asked of a device
    with room for two; the camera is left with the two registered ones. *)
Lemma alloc_cramped :
  alloc cramped
  = (Exc (uEyeException IS_NO_SUCCESS), snd (alloc cramped)) /\
  exists bufs : list ImageBuffer,
    img_buffers (self (snd (alloc cramped))) = bufs /\
    bufs = [ {| mem_ptr := 4096 * 3; mem_id := 3 |};
             {| mem_ptr := 4096 * 5; mem_id := 5 |} ].
Proof.
  assert (E : alloc cramped
              = (Exc (uEyeException IS_NO_SUCCESS), snd (alloc cramped)))
    by reflexivity.
  split; [exact E|].
  pose proof (alloc_failure_is_partial _ _ _ E) as H.
  assert (A : alloc_settings cramped
              = (Ret ({| x := 0; y := 0; width := 640; height := 480 |}, 8),
                 snd (alloc_settings cramped))) by reflexivity.
  rewrite A in H. destruct H as (bufs & d1 & _ & Hb & _).
  exists bufs. split; [exact Hb|]. rewrite <- Hb. reflexivity.
Defined.

(** Witness of [capture_image_stops_only_on_success]: a device that
    delivers a frame, and one that delivers none in time. *)
Lemma capture_image_witness :
  fst (capture_image (Some 1000) (opened device_one_frame))
  = Ret (Some {| mem_ptr := 4096; mem_id := 1 |}) /\
  fst (capture_image (Some 1000) (opened device30)) = Ret None.
Proof.
  split.
  - assert (E : bind (default_timeout (Some 1000))
                  (fun t => bind (capture_video false) (fun _ => ret t))
                  (opened device_one_frame)
                = (Ret 1000,
                   snd (capture_video false (opened device_one_frame))))
      by reflexivity.
    rewrite (proj2 (capture_image_stops_only_on_success _ _ _ _ E) eq_refl).
    reflexivity.
  - assert (E : bind (default_timeout (Some 1000))
                  (fun t => bind (capture_video false) (fun _ => ret t))
                  (opened device30)
                = (Ret 1000, snd (capture_video false (opened device30))))
      by reflexivity.
    rewrite (proj1 (capture_image_stops_only_on_success _ _ _ _ E)).
    + reflexivity.
    + discriminate.
Defined.

(** Witness of [capture_images_returns_frames_only]: one frame asked of a
    device that delivers one. *)
Lemma capture_images_one_frame :
  capture_images 1 (Some 1000) false (opened device_one_frame)
  = (Ret [Some {| mem_ptr := 4096; mem_id := 1 |}],
     snd (capture_images 1 (Some 1000) false (opened device_one_frame))) /\
  List.length [Some {| mem_ptr := 4096; mem_id := 1 |}] = Z.to_nat 1 /\
  Forall (fun slot : option ImageBuffer => slot <> None)
    [Some {| mem_ptr := 4096; mem_id := 1 |}].
Proof.
  assert (E : capture_images 1 (Some 1000) false (opened device_one_frame)
              = (Ret [Some {| mem_ptr := 4096; mem_id := 1 |}],
                 snd (capture_images 1 (Some 1000) false
                        (opened device_one_frame))))
    by (vm_compute; reflexivity).
  split; [exact E|].
  exact (capture_images_returns_frames_only 1 (Some 1000) false
           (opened device_one_frame) _ _ E).
Defined.

(** Witness of [init_failure_closes_handle]: the scripted driver knows
    the device of id 0 only. *)
Lemma init_unknown_device :
  init (camera_for 0 device30)
  = (Ret IS_SUCCESS,
     {| self := Camera__init__ 0 3; drv := called device30; stdout := [] |}) /\
  init (camera_for 1 device30)
  = (Exc (uEyeException 3),
     {| self := set_h_cam None (Camera__init__ 1 3); drv := called device30;
        stdout := [] |}) /\
  exit (snd (init (camera_for 1 device30)))
  = (Ret tt, snd (init (camera_for 1 device30))).
Proof.
  split; [|split].
  - exact (proj1 (init_failure_closes_handle (camera_for 0 device30))
             eq_refl).
  - refine (proj1 (proj2 (init_failure_closes_handle (camera_for 1 device30))
                     _)).
    discriminate.
  - refine (proj1 (proj2 (proj2 (proj2 (init_failure_closes_handle
                                           (camera_for 1 device30)) _)))).
    discriminate.
Defined.



End CameraSpec.
